(** * A shallow embedding of the tempura reconciliation core

    The development follows the TypeScript sources:
    - [directives/condition.ts]: [ConditionDirective], [ConditionBinding] and
      the [Block] class that shares the file;
    - [directives/choice.ts]: [ChoiceDirective] and [ChoiceBinding];
    - [directives/unsafeSVG.ts]: the [UnsafeSVG] directive;
    - the scope file: [LocalScope] and [Scope].

    Objects are records carrying the identity they were allocated with,
    mutable fields become fields of an explicitly threaded state, calls on
    collaborator objects (sub-bindings, the updater, templates) are recorded in
    an effect log, and a thrown exception is the [Throw] case of [Result]. *)

From Stdlib Require Import ZArith Ascii.
From Stdlib.Strings Require Byte.
From stdpp Require Import gmap strings list fin_maps.

Local Open Scope Z_scope.

(** ** Exceptions *)

Inductive Result (A : Type) : Type :=
| Ok (a : A)
| Throw (message : string).
Arguments Ok {A} a.
Arguments Throw {A} message.

#[global] Instance Result_bind : MBind Result := fun A B k m =>
  match m with
  | Ok a => k a
  | Throw e => Throw e
  end.

(** ** JavaScript values

    Numbers are the integer-valued doubles together with the two values on
    which the language's equalities disagree, [-0] and [NaN].  Objects and
    functions are references. *)

Module JS.

Inductive Value : Type :=
| VUndefined
| VNull
| VBool (b : bool)
| VNum (z : Z)            (* [VNum 0] is [+0] *)
| VNegZero
| VNaN
| VStr (s : string)
| VObj (r : nat)
| VDirective (kind : nat) (r : nat).  (* an object tagged as a directive *)

#[global] Instance Value_eq_dec : EqDecision Value.
Proof. solve_decision. Defined.

(** [Object.is(a, b)]: SameValue. *)
Definition object_is (a b : Value) : bool := bool_decide (a = b).

(** Keys of a [Map] are compared with SameValueZero, which the language
    implements by storing [-0] as [+0]. *)
Definition normalize_zero (a : Value) : Value :=
  match a with
  | VNegZero => VNum 0
  | _ => a
  end.

Definition same_value_zero (a b : Value) : bool :=
  bool_decide (normalize_zero a = normalize_zero b).

(** [a === b]. *)
Definition strict_equals (a b : Value) : bool :=
  match a, b with
  | VNaN, _ | _, VNaN => false
  | _, _ => bool_decide (normalize_zero a = normalize_zero b)
  end.

(** [a == null], the test performed by [??] and [?.]. *)
Definition is_nullish (a : Value) : bool :=
  match a with
  | VUndefined | VNull => true
  | _ => false
  end.

(** [a ?? b] *)
Definition nullish_coalesce (a b : Value) : Value :=
  if is_nullish a then b else a.

(** ToInt32, applied by the bitwise operators to their operands. *)
Definition to_int32 (z : Z) : Z := (z + 2 ^ 31) mod 2 ^ 32 - 2 ^ 31.

Definition bit_and (a b : Z) : Z := to_int32 (Z.land (to_int32 a) (to_int32 b)).
Definition bit_or (a b : Z) : Z := to_int32 (Z.lor (to_int32 a) (to_int32 b)).
Definition bit_xor (a b : Z) : Z := to_int32 (Z.lxor (to_int32 a) (to_int32 b)).

End JS.

Import JS.

(** ** Block (condition.ts, second half) *)

Module BlockFlag.
Definition MOUNTED : Z := 1.   (* 0b1 *)
Definition DIRTY : Z := 2.     (* 0b10 *)
Definition UPDATING : Z := 4.  (* 0b100 *)
End BlockFlag.

(** [TemplateInterface] objects.  The identity is the object reference; the
    descriptor count is what [mount] and [patch] check the values against. *)
Record Template : Type := {
  tpl_id : nat;
  tpl_parts : nat;
}.

Record MountPoint : Type := {
  mp_id : nat;
  mp_template : nat;
  mp_parts : nat;
}.

Record TemplateResult : Type := {
  template : Template;
  values : list Value;
}.

#[global] Instance Template_eq_dec : EqDecision Template.
Proof. solve_decision. Defined.
#[global] Instance MountPoint_eq_dec : EqDecision MountPoint.
Proof. solve_decision. Defined.

(** Calls that leave the block: requests to the updater and template
    operations. *)
Inductive BlockEffect : Type :=
| RequestUpdate (block : nat)
| TemplateMount (tpl : nat) (vs : list Value) (mp : nat)
| TemplatePatch (tpl : nat) (mp : nat) (old_vs new_vs : list Value)
| ConnectMountPoint (mp : nat) (part : nat).

(** The part of the environment a block talks to: the allocator of mount
    points and the record of calls made on the updater and the templates. *)
Record Env : Type := {
  next_object : nat;
  effects : list BlockEffect;
}.

#[global] Instance BlockEffect_eq_dec : EqDecision BlockEffect.
Proof. solve_decision. Defined.

Definition emit (e : BlockEffect) (w : Env) : Env :=
  {| next_object := next_object w; effects := effects w ++ [e] |}.

(** The fields of a [Block] that its flag and render logic reads or writes,
    and the reference of the block itself; [_hooks] and [_parent] take no
    part in the methods embedded here. *)
Record Block : Type := {
  block_id : nat;
  _type : Value -> TemplateResult;
  _pendingProps : Value;
  _pendingMountPoint : option MountPoint;
  _memoizedMountPoint : option MountPoint;
  _memoizedProps : Value;
  _memoizedTemplate : option Template;
  _memoizedValues : list Value;
  _cachedMountPoints : option (gmap nat MountPoint);
  _flags : Z;
}.

Module Block.

(** [new Block(type, props)] *)
Definition new (id : nat) (type : Value -> TemplateResult) (props : Value)
  : Block :=
  {| block_id := id;
     _type := type;
     _pendingProps := props;
     _pendingMountPoint := None;
     _memoizedMountPoint := None;
     _memoizedProps := props;
     _memoizedTemplate := None;
     _memoizedValues := [];
     _cachedMountPoints := None;
     _flags := BlockFlag.DIRTY |}.

Definition with_flags (f : Z) (b : Block) : Block :=
  {| block_id := block_id b; _type := _type b;
     _pendingProps := _pendingProps b;
     _pendingMountPoint := _pendingMountPoint b;
     _memoizedMountPoint := _memoizedMountPoint b;
     _memoizedProps := _memoizedProps b;
     _memoizedTemplate := _memoizedTemplate b;
     _memoizedValues := _memoizedValues b;
     _cachedMountPoints := _cachedMountPoints b;
     _flags := f |}.

Definition with_pendingProps (p : Value) (b : Block) : Block :=
  {| block_id := block_id b; _type := _type b;
     _pendingProps := p;
     _pendingMountPoint := _pendingMountPoint b;
     _memoizedMountPoint := _memoizedMountPoint b;
     _memoizedProps := _memoizedProps b;
     _memoizedTemplate := _memoizedTemplate b;
     _memoizedValues := _memoizedValues b;
     _cachedMountPoints := _cachedMountPoints b;
     _flags := _flags b |}.

Definition with_pendingMountPoint (mp : option MountPoint) (b : Block)
  : Block :=
  {| block_id := block_id b; _type := _type b;
     _pendingProps := _pendingProps b;
     _pendingMountPoint := mp;
     _memoizedMountPoint := _memoizedMountPoint b;
     _memoizedProps := _memoizedProps b;
     _memoizedTemplate := _memoizedTemplate b;
     _memoizedValues := _memoizedValues b;
     _cachedMountPoints := _cachedMountPoints b;
     _flags := _flags b |}.

Definition with_memoizedMountPoint (mp : option MountPoint) (b : Block)
  : Block :=
  {| block_id := block_id b; _type := _type b;
     _pendingProps := _pendingProps b;
     _pendingMountPoint := _pendingMountPoint b;
     _memoizedMountPoint := mp;
     _memoizedProps := _memoizedProps b;
     _memoizedTemplate := _memoizedTemplate b;
     _memoizedValues := _memoizedValues b;
     _cachedMountPoints := _cachedMountPoints b;
     _flags := _flags b |}.

Definition with_cachedMountPoints (c : option (gmap nat MountPoint))
  (b : Block) : Block :=
  {| block_id := block_id b; _type := _type b;
     _pendingProps := _pendingProps b;
     _pendingMountPoint := _pendingMountPoint b;
     _memoizedMountPoint := _memoizedMountPoint b;
     _memoizedProps := _memoizedProps b;
     _memoizedTemplate := _memoizedTemplate b;
     _memoizedValues := _memoizedValues b;
     _cachedMountPoints := c;
     _flags := _flags b |}.

(** The three assignments that end [render]. *)
Definition commit (f : Z) (vs : list Value) (t : Template) (b : Block)
  : Block :=
  {| block_id := block_id b; _type := _type b;
     _pendingProps := _pendingProps b;
     _pendingMountPoint := _pendingMountPoint b;
     _memoizedMountPoint := _memoizedMountPoint b;
     _memoizedProps := _pendingProps b;
     _memoizedTemplate := Some t;
     _memoizedValues := vs;
     _cachedMountPoints := _cachedMountPoints b;
     _flags := f |}.

(** [(this._flags & flag) !== 0] *)
Definition has_flag (flag : Z) (b : Block) : bool :=
  negb (bit_and (_flags b) flag =? 0).

(** [get isDirty] *)
Definition isDirty (b : Block) : bool := has_flag BlockFlag.DIRTY b.

(** [setProps(newProps)] *)
Definition setProps (newProps : Value) (b : Block) : Block :=
  if negb (strict_equals newProps (_pendingProps b)) then
    with_flags (bit_or (_flags b) BlockFlag.DIRTY)
      (with_pendingProps newProps b)
  else b.

(** [forceUpdate(updater)] *)
Definition forceUpdate (b : Block) (w : Env) : Block * Env :=
  if (bit_and (_flags b) BlockFlag.MOUNTED =? 0)
     || negb (bit_and (_flags b) BlockFlag.UPDATING =? 0)
  then (b, w)
  else
    (with_flags
       (bit_or (_flags b) (bit_or BlockFlag.DIRTY BlockFlag.UPDATING)) b,
     emit (RequestUpdate (block_id b)) w).

(** Modelled from the spec: [TemplateInterface.mount] of the template
    module, which is not part of the sources at hand.  It materialises a
    fresh mount point for the template and fails when the number of values
    differs from the number of part descriptors. *)
Definition template_mount (t : Template) (vs : list Value) (w : Env)
  : Result (MountPoint * Env) :=
  if decide (length vs = tpl_parts t) then
    let mp := {| mp_id := next_object w; mp_template := tpl_id t;
                 mp_parts := tpl_parts t |} in
    Ok (mp,
        {| next_object := S (next_object w);
           effects := effects w
                        ++ [TemplateMount (tpl_id t) vs (next_object w)] |})
  else Throw "values do not match the template".

(** Modelled from the spec: [TemplateInterface.patch] of the template
    module.  It updates the parts of a mount point in place and fails on a
    mismatched number of values. *)
Definition template_patch (t : Template) (mp : MountPoint)
  (old_vs new_vs : list Value) (w : Env) : Result Env :=
  if decide (length new_vs = tpl_parts t) then
    Ok (emit (TemplatePatch (tpl_id t) (mp_id mp) old_vs new_vs) w)
  else Throw "values do not match the template".

(** [this._memoizedTemplate !== template], a comparison of references. *)
Definition same_template (o : option Template) (t : Template) : bool :=
  match o with
  | Some t' => bool_decide (tpl_id t' = tpl_id t)
  | None => false
  end.

(** [render(scope, updater)].  The context handed to the render function
    only gives it access to the scope; the function is modelled by the
    template result it returns for the pending props. *)
Definition render (b : Block) (w : Env) : Result (Block * Env) :=
  let r := _type b (_pendingProps b) in
  '(b1, w1) ←
    match _memoizedMountPoint b with
    | None =>
        '(mp, w1) ← template_mount (template r) (values r) w ;
        Ok (with_pendingMountPoint (Some mp) b, w1)
    | Some memoized =>
        if negb (same_template (_memoizedTemplate b) (template r)) then
          '(b1, cache, w1) ←
            match _cachedMountPoints b with
            | None =>
                '(mp, w1) ← template_mount (template r) (values r) w ;
                Ok (with_pendingMountPoint (Some mp) b,
                    (∅ : gmap nat MountPoint), w1)
            | Some cache =>
                match cache !! tpl_id (template r) with
                | Some mp => Ok (with_pendingMountPoint (Some mp) b, cache, w)
                | None =>
                    '(mp, w1) ←
                      template_mount (template r) (values r) w ;
                    Ok (with_pendingMountPoint (Some mp) b, cache, w1)
                end
            end ;
          match _memoizedTemplate b with
          | Some old =>
              Ok (with_cachedMountPoints
                    (Some (<[tpl_id old := memoized]> cache)) b1, w1)
          | None => Throw "invalid value used as weak map key"
          end
        else
          w1 ← template_patch (template r) memoized
                    (_memoizedValues b) (values r) w ;
          Ok (b, w1)
    end ;
  Ok (commit
        (bit_xor (_flags b1) (bit_or BlockFlag.DIRTY BlockFlag.UPDATING))
        (values r) (template r) b1,
      w1).

(** [mount(part, updater)] *)
Definition mount (part : nat) (b : Block) (w : Env) : Block * Env :=
  let w1 :=
    match _pendingMountPoint b with
    | Some mp => emit (ConnectMountPoint (mp_id mp) part) w
    | None => w
    end in
  (with_memoizedMountPoint (_pendingMountPoint b)
     (with_flags (bit_or (_flags b) BlockFlag.MOUNTED) b),
   w1).

(** [n] consecutive calls of [forceUpdate]. *)
Fixpoint forceUpdate_times (n : nat) (b : Block) (w : Env) : Block * Env :=
  match n with
  | O => (b, w)
  | S n' => let '(b1, w1) := forceUpdate b w in forceUpdate_times n' b1 w1
  end.

(** The number of [requestUpdate] calls recorded for a block. *)
Definition requests (id : nat) (w : Env) : nat :=
  length (filter (fun e => e = RequestUpdate id) (effects w)).

End Block.

(** ** The binding protocol

    Sub-bindings are objects behind the [Binding] interface.  A binding is
    represented by its reference together with the two attributes that never
    change after construction, the part it is attached to and the directive
    kind it accepts; the calls made on bindings are recorded in order. *)

Inductive Kind : Type :=
| Plain
| DirectiveKind (k : nat).

Record Binding : Type := {
  binding_id : nat;
  binding_part : nat;
  binding_kind : Kind;
}.

Inductive BindingCall : Type :=
| Invoke (fid : nat)                      (* a zero-argument producer ran *)
| Create (b : Binding) (v : Value)        (* [b] was constructed for [v] *)
| Bind (b : Binding) (v : Value) (force : bool)
| Unbind (b : Binding)
| Disconnect (b : Binding).

#[global] Instance Kind_eq_dec : EqDecision Kind.
Proof. solve_decision. Defined.
#[global] Instance Binding_eq_dec : EqDecision Binding.
Proof. solve_decision. Defined.
#[global] Instance BindingCall_eq_dec : EqDecision BindingCall.
Proof. solve_decision. Defined.

Record Heap : Type := {
  next_binding : nat;
  calls : list BindingCall;
}.

Definition call (c : BindingCall) (h : Heap) : Heap :=
  {| next_binding := next_binding h; calls := calls h ++ [c] |}.

(** The calls made since an earlier heap. *)
Definition since (h h' : Heap) : list BindingCall :=
  drop (length (calls h)) (calls h').

(** The binding a call is made on. *)
Definition target (c : BindingCall) : option Binding :=
  match c with
  | Invoke _ => None
  | Create b _ | Bind b _ _ | Unbind b | Disconnect b => Some b
  end.

(** The calls that bind a value: a [bind] on an existing binding or the
    construction of a new one. *)
Definition binds (c : BindingCall) : bool :=
  match c with
  | Create _ _ | Bind _ _ _ => true
  | _ => false
  end.

Definition kind_of (v : Value) : Kind :=
  match v with
  | VDirective k _ => DirectiveKind k
  | _ => Plain
  end.

(** Modelled from the spec: [createBinding] of the binding module, which is
    not part of the sources at hand.  A directive-tagged value produces the
    binding of its kind, any other value the default binding; either way a
    new binding object for the part comes back. *)
Definition createBinding (part : nat) (v : Value) (h : Heap) : Binding * Heap :=
  let b := {| binding_id := next_binding h; binding_part := part;
              binding_kind := kind_of v |} in
  (b, {| next_binding := S (next_binding h);
         calls := calls h ++ [Create b v] |}).

(** Modelled from the spec: [updateBinding] of the binding module.  When the
    kind of the new value is the one the binding accepts, the binding is given
    the value and bound again; otherwise the old binding is unbound and
    disconnected and a new one is constructed with [createBinding].  The
    fourth argument asks for the bind to take place even on a binding that
    comes from a cache. *)
Definition updateBinding (b : Binding) (v : Value) (force : bool) (h : Heap)
  : Binding * Heap :=
  if decide (kind_of v = binding_kind b) then (b, call (Bind b v force) h)
  else createBinding (binding_part b) v (call (Disconnect b) (call (Unbind b) h)).

(** ** [Map] objects: insertion-ordered, keys compared by SameValueZero *)

Module JSMap.

Abbreviation t V := (list (Value * V)).

Fixpoint get {V : Type} (k : Value) (m : t V) : option V :=
  match m with
  | [] => None
  | (k', v) :: m' => if same_value_zero k' k then Some v else get k m'
  end.

Fixpoint set {V : Type} (k : Value) (v : V) (m : t V) : t V :=
  match m with
  | [] => [(normalize_zero k, v)]
  | (k', v') :: m' =>
      if same_value_zero k' k then (k', v) :: m' else (k', v') :: set k v m'
  end.

End JSMap.

(** ** choice.ts *)

Record ChoiceDirective : Type := {
  choice_key : Value;
  choice_factory : Value -> Value;
}.

Module ChoiceBinding.

Record t : Type := {
  _currentBinding : Binding;
  _currentKey : Value;
  _directive : ChoiceDirective;
  _cachedBindings : JSMap.t Binding;
}.

(** [new ChoiceBinding(binding, directive)] *)
Definition new (binding : Binding) (directive : ChoiceDirective) : t :=
  {| _currentBinding := binding;
     _currentKey := choice_key directive;
     _directive := directive;
     _cachedBindings := [] |}.

(** [ChoiceDirective[directiveTag](part, updater)] *)
Definition directiveTag (d : ChoiceDirective) (part : nat) (h : Heap)
  : t * Heap :=
  let value := choice_factory d (choice_key d) in
  let '(initialBinding, h1) := createBinding part value h in
  (new initialBinding d, h1).

(** [set value(directive)] *)
Definition set_value (directive : ChoiceDirective) (cb : t) : t :=
  {| _currentBinding := _currentBinding cb;
     _currentKey := _currentKey cb;
     _directive := directive;
     _cachedBindings := _cachedBindings cb |}.

(** [bind(updater)] *)
Definition bind (cb : t) (h : Heap) : t * Heap :=
  let factory := choice_factory (_directive cb) in
  let oldKey := _currentKey cb in
  let newKey := choice_key (_directive cb) in
  let newValue := factory newKey in
  if object_is oldKey newKey then
    let '(b, h1) := updateBinding (_currentBinding cb) newValue false h in
    ({| _currentBinding := b;
        _currentKey := _currentKey cb;
        _directive := _directive cb;
        _cachedBindings := _cachedBindings cb |}, h1)
  else
    let h1 := call (Unbind (_currentBinding cb)) h in
    let cache := JSMap.set oldKey (_currentBinding cb) (_cachedBindings cb) in
    let '(b, h2) :=
      match JSMap.get newKey cache with
      | Some cachedBinding => updateBinding cachedBinding newValue true h1
      | None =>
          createBinding (binding_part (_currentBinding cb)) newValue h1
      end in
    ({| _currentBinding := b;
        _currentKey := newKey;
        _directive := _directive cb;
        _cachedBindings := cache |}, h2).

(** The loop shared by [unbind] and [disconnect]:
    [for (const [key, binding] of this._cachedBindings)
       if (key !== this._directive.key) binding.disconnect();] *)
Fixpoint disconnect_cached (key : Value) (entries : JSMap.t Binding) (h : Heap)
  : Heap :=
  match entries with
  | [] => h
  | (k, binding) :: rest =>
      if negb (strict_equals k key)
      then disconnect_cached key rest (call (Disconnect binding) h)
      else disconnect_cached key rest h
  end.

(** [unbind(updater)] *)
Definition unbind (cb : t) (h : Heap) : Heap :=
  let h1 := call (Unbind (_currentBinding cb)) h in
  disconnect_cached (choice_key (_directive cb)) (_cachedBindings cb) h1.

(** [disconnect()] *)
Definition disconnect (cb : t) (h : Heap) : Heap :=
  disconnect_cached (choice_key (_directive cb)) (_cachedBindings cb) h.

(** Rebinding with a new directive value: the owner assigns [value] and
    calls [bind]. *)
Definition rebind (d : ChoiceDirective) (cb : t) (h : Heap) : t * Heap :=
  bind (set_value d cb) h.

End ChoiceBinding.

(** ** condition.ts *)

(** [ValueOrFunction<T>]: a value or a zero-argument function producing one.
    What a function returns may depend on everything that happened before the
    call. *)
Inductive ValueOrFunction (T : Type) : Type :=
| Val (v : T)
| Fun (fid : nat) (body : Heap -> T).
Arguments Val {T} v.
Arguments Fun {T} fid body.

(** [typeof x === 'function' ? x() : x] *)
Definition resolve {T : Type} (x : ValueOrFunction T) (h : Heap) : T * Heap :=
  match x with
  | Val v => (v, h)
  | Fun fid body => (body h, call (Invoke fid) h)
  end.

(** The truthiness of the stored condition itself: a boolean is its own
    truth value and a function object is truthy. *)
Definition truthy (c : ValueOrFunction bool) : bool :=
  match c with
  | Val b => b
  | Fun _ _ => true
  end.

Record ConditionDirective : Type := {
  condition : ValueOrFunction bool;
  trueCase : ValueOrFunction Value;
  falseCase : ValueOrFunction Value;
}.

(** The invocation a [resolve] performs, if any. *)
Definition invocations {T : Type} (x : ValueOrFunction T) : list BindingCall :=
  match x with
  | Val _ => []
  | Fun fid _ => [Invoke fid]
  end.

(** The call [binding?.method()] makes. *)
Definition opt_call (method : Binding -> BindingCall) (o : option Binding)
  : list BindingCall :=
  match o with
  | Some b => [method b]
  | None => []
  end.

(** The calls of [updateBinding] on an existing sub-binding, respectively of
    [createBinding] when there is none; [b'] is the resulting binding. *)
Definition binding_calls (existing : option Binding) (v : Value) (b' : Binding)
  : list BindingCall :=
  match existing with
  | Some s =>
      if decide (kind_of v = binding_kind s) then [Bind s v false]
      else [Unbind s; Disconnect s; Create b' v]
  | None => [Create b' v]
  end.

Module ConditionBinding.

Record t : Type := {
  _part : nat;
  _directive : ConditionDirective;
  _trueBinding : option Binding;
  _falseBinding : option Binding;
}.

(** [new ConditionBinding(part, directive)] *)
Definition new (part : nat) (directive : ConditionDirective) : t :=
  {| _part := part; _directive := directive;
     _trueBinding := None; _falseBinding := None |}.

(** [set value(newDirective)] *)
Definition set_value (newDirective : ConditionDirective) (cb : t) : t :=
  {| _part := _part cb; _directive := newDirective;
     _trueBinding := _trueBinding cb; _falseBinding := _falseBinding cb |}.

(** [binding?.unbind(updater)] *)
Definition unbind_opt (o : option Binding) (h : Heap) : Heap :=
  match o with
  | Some b => call (Unbind b) h
  | None => h
  end.

(** [binding?.disconnect()] *)
Definition disconnect_opt (o : option Binding) (h : Heap) : Heap :=
  match o with
  | Some b => call (Disconnect b) h
  | None => h
  end.

(** [bind(updater)] *)
Definition bind (cb : t) (h : Heap) : t * Heap :=
  let d := _directive cb in
  let '(c, h1) := resolve (condition d) h in
  if c then
    let '(newValue, h2) := resolve (trueCase d) h1 in
    let h3 := unbind_opt (_falseBinding cb) h2 in
    let '(b, h4) :=
      match _trueBinding cb with
      | Some tb => updateBinding tb newValue false h3
      | None => createBinding (_part cb) newValue h3
      end in
    ({| _part := _part cb; _directive := d;
        _trueBinding := Some b; _falseBinding := _falseBinding cb |}, h4)
  else
    let '(newValue, h2) := resolve (falseCase d) h1 in
    let h3 := unbind_opt (_trueBinding cb) h2 in
    let '(b, h4) :=
      match _falseBinding cb with
      | Some fb => updateBinding fb newValue false h3
      | None => createBinding (_part cb) newValue h3
      end in
    ({| _part := _part cb; _directive := d;
        _trueBinding := _trueBinding cb; _falseBinding := Some b |}, h4).

(** [unbind(updater)] *)
Definition unbind (cb : t) (h : Heap) : Heap :=
  if truthy (condition (_directive cb)) then
    disconnect_opt (_falseBinding cb) (unbind_opt (_trueBinding cb) h)
  else
    disconnect_opt (_trueBinding cb) (unbind_opt (_falseBinding cb) h).

(** [disconnect()] *)
Definition disconnect (cb : t) (h : Heap) : Heap :=
  disconnect_opt (_falseBinding cb) (disconnect_opt (_trueBinding cb) h).

(** [ConditionDirective[directiveTag](part, updater)] *)
Definition directiveTag (d : ConditionDirective) (part : nat) (h : Heap)
  : t * Heap :=
  bind (new part d) h.

End ConditionBinding.

(** ** unsafeSVG.ts *)

(** Modelled from the spec: the kinds of [Part] of the parts module (child
    region, attribute, property, event, raw text).  [ChildPartKind] stands
    for [part instanceof ChildPart]. *)
Inductive PartKind : Type :=
| ChildPartKind
| AttributePartKind
| PropertyPartKind
| EventPartKind
| TextPartKind.

(** What a part can hold, by class: an instance of the directive class
    [UnsafeSVG], an instance of the [ChildValue] subclass [UnsafeSVGChild],
    or any other value. *)
Inductive PartValue : Type :=
| OtherValue (v : Value)
| UnsafeSVGValue (content : string)
| UnsafeSVGChildValue (content : string).

Record Part : Type := {
  part_id : nat;
  part_kind : PartKind;
  part_value : PartValue;
}.

Inductive UpdaterCall : Type :=
| SetValue (part : nat) (v : PartValue)
| EnqueueMutationEffect (part : nat).

#[global] Instance PartKind_eq_dec : EqDecision PartKind.
Proof. solve_decision. Defined.
#[global] Instance PartValue_eq_dec : EqDecision PartValue.
Proof. solve_decision. Defined.
#[global] Instance Part_eq_dec : EqDecision Part.
Proof. solve_decision. Defined.
#[global] Instance UpdaterCall_eq_dec : EqDecision UpdaterCall.
Proof. solve_decision. Defined.

(** Modelled from the spec: [ChildPart.setValue] of the parts module; the
    part holds the value last written to it. *)
Definition setValue (v : PartValue) (part : Part) (log : list UpdaterCall)
  : Part * list UpdaterCall :=
  ({| part_id := part_id part; part_kind := part_kind part; part_value := v |},
   log ++ [SetValue (part_id part) v]).

Module UnsafeSVG.

Record t : Type := { _content : string }.

(** [unsafeSVG(content)] *)
Definition unsafeSVG (content : string) : t := {| _content := content |}.

(** [part.value instanceof UnsafeSVGChild && part.value.content === content] *)
Definition same_content (v : PartValue) (content : string) : bool :=
  match v with
  | UnsafeSVGChildValue c => bool_decide (c = content)
  | _ => false
  end.

(** The message of the error, in which the class name stands between double
    quotes, the character 34. *)
Definition double_quote : string :=
  String (Stdlib.Strings.Ascii.ascii_of_nat 34) EmptyString.

Definition must_be_child : string :=
  double_quote +:+ "UnsafeSVG" +:+ double_quote
  +:+ " directive must be used in an arbitrary child.".

(** [UnsafeSVG[directiveSymbol](part, updater)]; the effect log stands for
    the updater. *)
Definition directiveSymbol (d : t) (part : Part) (log : list UpdaterCall)
  : Result (Part * list UpdaterCall) :=
  if negb (bool_decide (part_kind part = ChildPartKind)) then
    Throw must_be_child
  else if same_content (part_value part) (_content d) then
    Ok (part, log)
  else
    let '(part1, log1) := setValue (UnsafeSVGValue (_content d)) part log in
    Ok (part1, log1 ++ [EnqueueMutationEffect (part_id part1)]).

End UnsafeSVG.

(** ** The scope file: [LocalScope] and [Scope] *)

(** Property keys: strings (numeric keys are strings once used as a property
    name) and symbols. *)
Inductive PropertyKey : Type :=
| StringKey (s : string)
| SymbolKey (id : nat).

#[global] Instance PropertyKey_eq_dec : EqDecision PropertyKey.
Proof. solve_decision. Defined.

#[global] Instance PropertyKey_countable : Countable PropertyKey.
Proof.
  refine (inj_countable'
            (fun k => match k with
                      | StringKey s => inl s
                      | SymbolKey i => inr i
                      end)
            (fun x => match x with
                      | inl s => StringKey s
                      | inr i => SymbolKey i
                      end) _).
  intros []; reflexivity.
Defined.

(** The name of the accessor that plain objects inherit from
    [Object.prototype]. *)
Definition proto_key : PropertyKey := StringKey "__proto__".

(** What a record inherits from: the intrinsic [Object.prototype], which an
    object literal starts with, or what was put in its place, [null] or an
    object of the caller. *)
Inductive Prototype : Type :=
| ObjectPrototype
| ReplacedBy (proto : Value).

(** [Varibales]: a plain object used as a dictionary.  Its own properties
    are data properties, defined by the literal that creates the object or by
    an assignment. *)
Record Varibales : Type := {
  own : gmap PropertyKey Value;
  prototype : Prototype;
}.

(** An object literal with the given properties, [{}] when there is none. *)
Definition literal (properties : gmap PropertyKey Value) : Varibales :=
  {| own := properties; prototype := ObjectPrototype |}.

(** Whether a value is an object: the [__proto__] setter acts on objects and
    on [null] and ignores every other value. *)
Definition is_object (v : Value) : bool :=
  match v with
  | VObj _ | VDirective _ _ => true
  | _ => false
  end.

(** The objects a record can inherit from.  [Object.prototype] is the
    intrinsic of the language: [inherited key] is the value of its data
    property [key], all of them writable, and [undefined] for a name it does
    not have; its one accessor is [__proto__].  The objects of the caller are
    told by what reading and writing through them does: [foreign_get o key] is
    [o[key]], and [foreign_set o record key value] is the outcome of
    [record[key] = value] for a record that inherits from [o] and has no own
    property [key], which depends on what [o] and its prototypes hold for
    [key] (a writable data property or nothing, a setter, a property that
    cannot be written). *)
Record Realm : Type := {
  object_prototype : Value;
  inherited : PropertyKey -> Value;
  foreign_get : Value -> PropertyKey -> Value;
  foreign_set : Value -> Varibales -> PropertyKey -> Value -> Result Varibales;
}.

(** A [TemplateStringsArray]: the reference the caches are keyed by, and the
    static strings. *)
Record TemplateStringsArray : Type := {
  tsa_id : nat;
  tsa_strings : list string;
}.

(** The template module as the scopes see it: the allocator of template
    objects and the record of the arrays the parser was invoked on. *)
Record Parser : Type := {
  next_template : nat;
  parsed : list nat;
}.

Section Scopes.

Context (realm : Realm).

(** [Object.prototype[key]] as read through an object that inherits from it:
    the getter of [__proto__] returns the prototype of the object, which is
    [Object.prototype] itself. *)
Definition inherited_property (key : PropertyKey) : Value :=
  if decide (key = proto_key) then object_prototype realm
  else inherited realm key.

(** [record[key]]: the own property, or else what the prototype chain holds;
    a property found nowhere reads as [undefined]. *)
Definition property (record : Varibales) (key : PropertyKey) : Value :=
  match own record !! key with
  | Some v => v
  | None =>
      match prototype record with
      | ObjectPrototype => inherited_property key
      | ReplacedBy VNull => VUndefined
      | ReplacedBy o => foreign_get realm o key
      end
  end.

Definition define (record : Varibales) (key : PropertyKey) (value : Value)
  : Varibales :=
  {| own := <[key := value]> (own record); prototype := prototype record |}.

(** The setter of [__proto__] on [Object.prototype]: an object or [null]
    becomes the prototype of the record, any other value is ignored.  The
    records of a scope are extensible and are referenced by nothing but the
    scope, so the change is never refused. *)
Definition set_proto (record : Varibales) (value : Value) : Varibales :=
  if bool_decide (value = object_prototype realm) then record
  else if is_object value || bool_decide (value = VNull) then
    {| own := own record; prototype := ReplacedBy value |}
  else record.

(** [record[key] = value] in strict code: an own property is updated; else
    the prototype chain decides.  [Object.prototype] intercepts [__proto__]
    only, and a record without prototype has nothing to intercept. *)
Definition assign (record : Varibales) (key : PropertyKey) (value : Value)
  : Result Varibales :=
  match own record !! key with
  | Some _ => Ok (define record key value)
  | None =>
      match prototype record with
      | ObjectPrototype =>
          if decide (key = proto_key) then Ok (set_proto record value)
          else Ok (define record key value)
      | ReplacedBy VNull => Ok (define record key value)
      | ReplacedBy o => foreign_set realm o record key value
      end
  end.

(** Modelled from the spec: the parsers of the template module, which is not
    part of the sources at hand.  Parsing is a pure function of the static
    strings and the marker that yields the part descriptors of the template,
    here their number, or rejects the strings. *)
Context (parse_descriptors parseHTML_descriptors parseSVG_descriptors
           : list string -> string -> option nat).

(** A parser call: recorded, and a new template object on success. *)
Definition parse_with (descriptors : list string -> string -> option nat)
  (strings : TemplateStringsArray) (marker : string) (p : Parser)
  : Result Template * Parser :=
  match descriptors (tsa_strings strings) marker with
  | Some n =>
      (Ok {| tpl_id := next_template p; tpl_parts := n |},
       {| next_template := S (next_template p);
          parsed := parsed p ++ [tsa_id strings] |})
  | None =>
      (Throw "invalid template",
       {| next_template := next_template p;
          parsed := parsed p ++ [tsa_id strings] |})
  end.

Record ScopeState : Type := {
  _variableScope : gmap nat Varibales;
  _templateCaches : gmap nat Template;
  _globalVariables : Varibales;
  _marker : string;
}.

(** [new Scope(globalVariables)] and [new LocalScope(globalVariables)]; the
    marker is what [getUUID] (respectively [getMarker]) returned. *)
Definition new_scope (globalVariables : Varibales) (marker : string)
  : ScopeState :=
  {| _variableScope := ∅; _templateCaches := ∅;
     _globalVariables := globalVariables; _marker := marker |}.

(** [getVariable(key, renderable)], the same code in both classes:
    [this._variableScope.get(renderable)?.[key] ?? this._globalVariables[key]] *)
Definition getVariable (key : PropertyKey) (renderable : nat) (s : ScopeState)
  : Value :=
  nullish_coalesce
    (match _variableScope s !! renderable with
     | Some variables => property variables key
     | None => VUndefined
     end)
    (property (_globalVariables s) key).

Definition with_variables (renderable : nat) (variables : Varibales)
  (s : ScopeState) : ScopeState :=
  {| _variableScope := <[renderable := variables]> (_variableScope s);
     _templateCaches := _templateCaches s;
     _globalVariables := _globalVariables s; _marker := _marker s |}.

(** [setVariable(key, value, renderable)], the same code in both classes:
    [variables[key] = value] on the record the renderable has, which is
    changed in place, or else a new record [{ [key]: value }], in which a
    computed name defines an own property whatever the name. *)
Definition setVariable (key : PropertyKey) (value : Value) (renderable : nat)
  (s : ScopeState) : Result ScopeState :=
  match _variableScope s !! renderable with
  | Some variables =>
      variables' ← assign variables key value;
      Ok (with_variables renderable variables' s)
  | None => Ok (with_variables renderable (literal {[key := value]}) s)
  end.

(** The body shared by [createTemplate], [createHTMLTemplate] and
    [createSVGTemplate], which differ in the parser they call. *)
Definition create_with (descriptors : list string -> string -> option nat)
  (strings : TemplateStringsArray) (s : ScopeState) (p : Parser)
  : Result Template * (ScopeState * Parser) :=
  match _templateCaches s !! tsa_id strings with
  | Some template => (Ok template, (s, p))
  | None =>
      match parse_with descriptors strings (_marker s) p with
      | (Ok template, p1) =>
          (Ok template,
           ({| _variableScope := _variableScope s;
               _templateCaches :=
                 <[tsa_id strings := template]> (_templateCaches s);
               _globalVariables := _globalVariables s;
               _marker := _marker s |}, p1))
      | (Throw e, p1) => (Throw e, (s, p1))
      end
  end.

(** [Scope.createTemplate(strings, _values)] *)
Definition createTemplate := create_with parse_descriptors.

(** [LocalScope.createHTMLTemplate(tokens, _values)] *)
Definition createHTMLTemplate := create_with parseHTML_descriptors.

(** [LocalScope.createSVGTemplate(tokens, _values)] *)
Definition createSVGTemplate := create_with parseSVG_descriptors.

(** Sequences of calls on one scope: a [Scope] receives [createTemplate] and
    [setVariable], a [LocalScope] the two other template methods and
    [setVariable]. *)
Inductive ScopeCall : Type :=
| CreateTemplate (strings : TemplateStringsArray)
| CreateHTMLTemplate (tokens : TemplateStringsArray)
| CreateSVGTemplate (tokens : TemplateStringsArray)
| SetVariable (key : PropertyKey) (value : Value) (renderable : nat).

Definition returned {A : Type} (r : Result A) : bool :=
  match r with
  | Ok _ => true
  | Throw _ => false
  end.

(** One call; the boolean tells whether it returned. *)
Definition step (c : ScopeCall) (s : ScopeState) (p : Parser)
  : bool * (ScopeState * Parser) :=
  match c with
  | CreateTemplate strings =>
      let '(r, sp) := createTemplate strings s p in (returned r, sp)
  | CreateHTMLTemplate tokens =>
      let '(r, sp) := createHTMLTemplate tokens s p in (returned r, sp)
  | CreateSVGTemplate tokens =>
      let '(r, sp) := createSVGTemplate tokens s p in (returned r, sp)
  | SetVariable key value renderable =>
      match setVariable key value renderable s with
      | Ok s1 => (true, (s1, p))
      | Throw _ => (false, (s, p))
      end
  end.

(** The calls in order; the exception of a call that throws ends the
    sequence. *)
Fixpoint run (cs : list ScopeCall) (s : ScopeState) (p : Parser)
  : ScopeState * Parser :=
  match cs with
  | [] => (s, p)
  | c :: cs' =>
      match step c s p with
      | (true, (s1, p1)) => run cs' s1 p1
      | (false, sp) => sp
      end
  end.

(** The same calls when every exception is caught by the caller and the
    sequence goes on. *)
Fixpoint run_caught (cs : list ScopeCall) (s : ScopeState) (p : Parser)
  : ScopeState * Parser :=
  match cs with
  | [] => (s, p)
  | c :: cs' => let '(_, (s1, p1)) := step c s p in run_caught cs' s1 p1
  end.




(** The renderable has no record of variables yet. *)
Definition without_variables (renderable : nat) (s : ScopeState) : Prop :=
  _variableScope s !! renderable = None.

(** The renderable has a record of variables, which inherits from
    [Object.prototype] as when it was created. *)
Definition with_plain_variables (renderable : nat) (s : ScopeState) : Prop :=
  exists variables : Varibales,
    _variableScope s !! renderable = Some variables
    /\ prototype variables = ObjectPrototype.

(** How many times the parser was invoked on an array. *)
Definition parse_count (strings : TemplateStringsArray) (p : Parser) : nat :=
  length (filter (fun i => i = tsa_id strings) (parsed p)).

Definition new_parser : Parser := {| next_template := 0; parsed := [] |}.

(** Every array the parser was invoked on is in the cache, and none was
    parsed twice. *)
Definition parsed_once (s : ScopeState) (p : Parser) : Prop :=
  NoDup (parsed p)
  /\ forall i : nat, i ∈ parsed p -> is_Some (_templateCaches s !! i).

End Scopes.

(** ** Concrete objects used by the examples *)

Module Examples.

Definition template_a : Template := {| tpl_id := 10; tpl_parts := 1 |}.

(** A render function that returns the same template with its props as the
    only value. *)
Definition show_props (props : Value) : TemplateResult :=
  {| template := template_a; values := [props] |}.

Definition env0 : Env := {| next_object := 100; effects := [] |}.

Definition fresh_block : Block := Block.new 1 show_props (VNum 1).

(** First render, mount, new props, second render, new props again: the
    block is then mounted with changed props and no update requested. *)
Definition to_mounted_dirty : Result (Block * Env) :=
  '(b1, w1) ← Block.render fresh_block env0;
  let '(b2, w2) := Block.mount 0 b1 w1 in
  '(b3, w3) ← Block.render (Block.setProps (VNum 2) b2) w2;
  Ok (Block.setProps (VNum 3) b3, w3).

Definition mounted_dirty_block : Block :=
  {| block_id := 1;
     _type := show_props;
     _pendingProps := VNum 3;
     _pendingMountPoint :=
       Some {| mp_id := 100; mp_template := 10; mp_parts := 1 |};
     _memoizedMountPoint :=
       Some {| mp_id := 100; mp_template := 10; mp_parts := 1 |};
     _memoizedProps := VNum 2;
     _memoizedTemplate := Some template_a;
     _memoizedValues := [VNum 2];
     _cachedMountPoints := None;
     _flags := 3 |}.

Definition mounted_dirty_env : Env :=
  {| next_object := 101;
     effects := [TemplateMount 10 [VNum 1] 100; ConnectMountPoint 100 0;
                 TemplatePatch 10 100 [VNum 1] [VNum 2]] |}.

Definition mounted_clean_block : Block := Block.with_flags 1 mounted_dirty_block.

Definition heap0 : Heap := {| next_binding := 0; calls := [] |}.

(** Choice directives whose factory shows the key itself, a plain value. *)
Definition choice_of (key : Value) : ChoiceDirective :=
  {| choice_key := key; choice_factory := fun k => k |}.

(** [choice("a", f)] bound to part 0, then rebound with ["b"]. *)
Definition choice_a_then_b : ChoiceBinding.t * Heap :=
  let '(cb0, h0) := ChoiceBinding.directiveTag (choice_of (VStr "a")) 0 heap0 in
  ChoiceBinding.rebind (choice_of (VStr "b")) cb0 h0.

(** [choice(NaN, f)] bound to part 0, rebound with key [1], then with [NaN]
    again. *)
Definition choice_nan_round_trip : ChoiceBinding.t * Heap :=
  let '(cb0, h0) := ChoiceBinding.directiveTag (choice_of VNaN) 0 heap0 in
  let '(cb1, h1) := ChoiceBinding.rebind (choice_of (VNum 1)) cb0 h0 in
  ChoiceBinding.rebind (choice_of VNaN) cb1 h1.

Definition binding0 : Binding :=
  {| binding_id := 0; binding_part := 0; binding_kind := Plain |}.

Definition binding1 : Binding :=
  {| binding_id := 1; binding_part := 0; binding_kind := Plain |}.

(** [condition(c, "yes", "no")] *)
Definition yes_no (c : ValueOrFunction bool) : ConditionDirective :=
  {| condition := c; trueCase := Val (VStr "yes");
     falseCase := Val (VStr "no") |}.

(** A condition binding first bound with [false], then with [true]: both
    branches have a sub-binding, the true branch is the bound one. *)
Definition condition_both : ConditionBinding.t * Heap :=
  let '(cb0, h0) := ConditionBinding.directiveTag (yes_no (Val false)) 0 heap0 in
  ConditionBinding.bind (ConditionBinding.set_value (yes_no (Val true)) cb0) h0.

(** The same with a predicate that answers [false] as the last condition. *)
Definition condition_both_function : ConditionBinding.t * Heap :=
  let '(cb0, h0) := condition_both in
  ConditionBinding.bind
    (ConditionBinding.set_value (yes_no (Fun 7 (fun _ => false))) cb0) h0.

Definition attribute_part : Part :=
  {| part_id := 3; part_kind := AttributePartKind;
     part_value := OtherValue (VStr "x") |}.

Definition child_part : Part :=
  {| part_id := 0; part_kind := ChildPartKind;
     part_value := OtherValue VNull |}.

Definition circle : string := "<circle r=1 />".

Definition theme : PropertyKey := StringKey "theme".

(** A scope whose global record is [{ theme: 5 }]. *)
Definition themed_scope : ScopeState :=
  new_scope (literal {[theme := VNum 5]}) "{{marker}}".

(** [Object.prototype] with two of its methods, and an object [{ x: 9 }] of
    the caller, all of whose properties are writable data properties. *)
Definition Object_prototype : Value := VObj 1000.

Definition x_is_9 : Value := VObj 2000.

Definition realm : Realm :=
  {| object_prototype := Object_prototype;
     inherited := fun key =>
       if decide (key = StringKey "constructor") then VObj 1001
       else if decide (key = StringKey "toString") then VObj 1002
       else VUndefined;
     foreign_get := fun o key =>
       if decide (o = x_is_9) then
         if decide (key = StringKey "x") then VNum 9
         else if decide (key = StringKey "constructor") then VObj 1001
         else if decide (key = StringKey "toString") then VObj 1002
         else if decide (key = proto_key) then Object_prototype
         else VUndefined
       else VUndefined;
     foreign_set := fun o record key value =>
       if decide (key = proto_key) then
         Ok {| own := own record;
               prototype :=
                 if is_object value || bool_decide (value = VNull)
                 then ReplacedBy value else prototype record |}
       else Ok {| own := <[key := value]> (own record);
                  prototype := prototype record |} |}.

Definition strings_a : TemplateStringsArray :=
  {| tsa_id := 1; tsa_strings := ["<p>"; "</p>"] |}.

(** A parser that accepts everything and counts the holes. *)
Definition count_holes (strings : list string) (_ : string) : option nat :=
  Some (length strings - 1)%nat.

(** The binding of [condition_both] given a directive. *)
Definition condition_with (c : ValueOrFunction bool) : ConditionBinding.t :=
  ConditionBinding.set_value (yes_no c) (fst condition_both).

End Examples.

(** * Further parts of the sources *)

(** ** Block: the rest of the lifecycle (condition.ts, second half) *)

(** Modelled from the spec: the hook records of the hook module, which is
    not part of the sources at hand.  A hook has a type, of which the block
    distinguishes [EFFECT] and [LAYOUT_EFFECT], and may hold a cleanup
    callback. *)
Inductive HookType : Type :=
| EFFECT
| LAYOUT_EFFECT
| OTHER_HOOK.

Record Hook : Type := {
  hook_id : nat;
  hook_type : HookType;
  hook_cleanup : bool;   (* whether [hook.cleanup] is defined *)
}.

(** The calls [unmount] and [update] make, in order: cleanup callbacks and
    the two functions of the file that touch the node tree,
    [disconnectMountPoint(mountPoint, updater)] and
    [connectMountPoint(mountPoint, part)]. *)
Inductive LifecycleCall : Type :=
| Cleanup (hook : nat)
| DisconnectMountPoint (mp : nat)
| ConnectMountPointTo (mp : nat) (part : nat).

#[global] Instance LifecycleCall_eq_dec : EqDecision LifecycleCall.
Proof. solve_decision. Defined.

Module BlockLifecycle.

(** [get props] *)
Definition props (b : Block) : Value := _memoizedProps b.

(** The loop over [this._hooks] that opens [unmount]. *)
Fixpoint cleanups (hooks : list Hook) : list LifecycleCall :=
  match hooks with
  | [] => []
  | hook :: rest =>
      match hook_type hook with
      | EFFECT | LAYOUT_EFFECT =>
          if hook_cleanup hook then Cleanup (hook_id hook) :: cleanups rest
          else cleanups rest
      | OTHER_HOOK => cleanups rest
      end
  end.

(** [unmount(_part, updater)]; [hooks] is [this._hooks]. *)
Definition unmount (hooks : list Hook) (b : Block)
  : Block * list LifecycleCall :=
  (Block.with_flags (bit_xor (_flags b) BlockFlag.MOUNTED) b,
   cleanups hooks
     ++ match _memoizedMountPoint b with
        | Some mp => [DisconnectMountPoint (mp_id mp)]
        | None => []
        end).

(** [newMountPoint !== oldMountPoint], on references or [null]. *)
Definition same_mount_point (a b : option MountPoint) : bool :=
  bool_decide (mp_id <$> a = mp_id <$> b).

(** [update(part, updater)] *)
Definition update (part : nat) (b : Block) : Block * list LifecycleCall :=
  let oldMountPoint := _memoizedMountPoint b in
  let newMountPoint := _pendingMountPoint b in
  if negb (same_mount_point newMountPoint oldMountPoint) then
    (Block.with_memoizedMountPoint newMountPoint b,
     match oldMountPoint with
     | Some mp => [DisconnectMountPoint (mp_id mp)]
     | None => []
     end
     ++ match newMountPoint with
        | Some mp => [ConnectMountPointTo (mp_id mp) part]
        | None => []
        end)
  else (b, []).

(** The public methods as operations on a block. *)
Inductive Op : Type :=
| SetProps (newProps : Value)
| ForceUpdate
| Render
| Mount (part : nat)
| Unmount (hooks : list Hook)
| Update (part : nat).

Definition apply (op : Op) (b : Block) (w : Env) : Result (Block * Env) :=
  match op with
  | SetProps newProps => Ok (Block.setProps newProps b, w)
  | ForceUpdate => Ok (Block.forceUpdate b w)
  | Render => Block.render b w
  | Mount part => Ok (Block.mount part b w)
  | Unmount hooks => Ok (fst (unmount hooks b), w)
  | Update part => Ok (fst (update part b), w)
  end.

(** The operations in order; an exception of [render] ends the sequence. *)
Fixpoint run (ops : list Op) (b : Block) (w : Env) : Result (Block * Env) :=
  match ops with
  | [] => Ok (b, w)
  | op :: rest => '(b1, w1) ← apply op b w; run rest b1 w1
  end.

(** What the methods keep true of a block: the flags are made of the three
    bits, and a block that has a mount point has a memoized template. *)
Definition well_formed (b : Block) : Prop :=
  0 <= _flags b < 8
  /\ (is_Some (_pendingMountPoint b) \/ is_Some (_memoizedMountPoint b) ->
      is_Some (_memoizedTemplate b)).

End BlockLifecycle.

Module LifecycleExamples.

Definition template_b : Template := {| tpl_id := 11; tpl_parts := 0 |}.

(** A render function with two shapes: [template_a] around a number,
    [template_b] without values for anything else. *)
Definition two_shapes (props : Value) : TemplateResult :=
  match props with
  | VNum _ => {| template := Examples.template_a; values := [props] |}
  | _ => {| template := template_b; values := [] |}
  end.

Definition mount_point_a : MountPoint :=
  {| mp_id := 100; mp_template := 10; mp_parts := 1 |}.

(** A block rendered with a number and mounted, whose props were then set to
    a string. *)
Definition shaped_block : Block :=
  {| block_id := 1;
     _type := two_shapes;
     _pendingProps := VStr "x";
     _pendingMountPoint := Some mount_point_a;
     _memoizedMountPoint := Some mount_point_a;
     _memoizedProps := VNum 1;
     _memoizedTemplate := Some Examples.template_a;
     _memoizedValues := [VNum 1];
     _cachedMountPoints := None;
     _flags := 7 |}.

Definition shaped_env : Env :=
  {| next_object := 101;
     effects := [TemplateMount 10 [VNum 1] 100; ConnectMountPoint 100 0] |}.

Definition ops : list BlockLifecycle.Op :=
  [BlockLifecycle.Render; BlockLifecycle.Mount 0;
   BlockLifecycle.SetProps (VStr "x"); BlockLifecycle.Render;
   BlockLifecycle.Update 0; BlockLifecycle.SetProps (VNum 2);
   BlockLifecycle.Render; BlockLifecycle.Update 0;
   BlockLifecycle.Unmount []].

End LifecycleExamples.

(** ** ConditionBinding: the node getters (condition.ts) *)

Module ConditionNodes.

Section Getters.

(** The [startNode] of a sub-binding and the node of a part are given by
    the objects themselves. *)
Context (binding_startNode : Binding -> nat) (part_node : nat -> nat).

(** [get startNode] *)
Definition startNode (cb : ConditionBinding.t) : nat :=
  let binding :=
    if truthy (condition (ConditionBinding._directive cb))
    then ConditionBinding._trueBinding cb
    else ConditionBinding._falseBinding cb in
  match binding with
  | Some b => binding_startNode b
  | None => part_node (ConditionBinding._part cb)
  end.

(** [get endNode] *)
Definition endNode (cb : ConditionBinding.t) : nat :=
  part_node (ConditionBinding._part cb).

End Getters.

End ConditionNodes.

(** ** getUUID (the scope file) *)

Module UUID.

Local Open Scope N_scope.

Definition hex_digit (d : N) : ascii :=
  match d with
  | 0 => "0" | 1 => "1" | 2 => "2" | 3 => "3" | 4 => "4" | 5 => "5"
  | 6 => "6" | 7 => "7" | 8 => "8" | 9 => "9" | 10 => "a" | 11 => "b"
  | 12 => "c" | 13 => "d" | 14 => "e" | _ => "f"
  end%char.

(** The digits of [n] in base 16, most significant first. *)
Fixpoint digits16 (fuel : nat) (n : N) (acc : string) : string :=
  let acc' := String (hex_digit (n mod 16)) acc in
  match fuel with
  | O => acc'
  | S fuel' => if n / 16 =? 0 then acc' else digits16 fuel' (n / 16) acc'
  end.

(** [n.toString(16)] for a non-negative integer. *)
Definition toString16 (n : N) : string :=
  digits16 (N.to_nat (N.log2 n)) n "".

(** [s.padStart(targetLength, fill)] with a one-character fill. *)
Definition padStart (targetLength : nat) (fill : ascii) (s : string)
  : string :=
  Stdlib.Strings.String.string_of_list_ascii (repeat fill (targetLength - Stdlib.Strings.String.length s))
  +:+ s.

(** [s.slice(from, to)] for [0 <= from <= to]. *)
Definition slice (from to : nat) (s : string) : string :=
  Stdlib.Strings.String.substring from (to - from) s.

(** [bytes.map((byte) => byte.toString(16).padStart(2, '0')).join('')] *)
Definition hex_of_bytes (bytes : list Byte.byte) : string :=
  Stdlib.Strings.String.concat ""
    (map (fun b => padStart 2 "0" (toString16 (Byte.to_N b))) bytes).

(** The branch of [getUUID] that builds the identifier from sixteen values
    of [crypto.getRandomValues]. *)
Definition uuid_of_bytes (bytes : list Byte.byte) : string :=
  let s := hex_of_bytes bytes in
  let p1 := slice 0 8 s in
  let p2 := slice 8 12 s in
  let p3 := slice 12 16 s in
  let p4 := slice 16 20 s in
  let p5 := slice 20 32 s in
  p1 +:+ "-" +:+ p2 +:+ "-" +:+ p3 +:+ "-" +:+ p4 +:+ "-" +:+ p5.

(** [getUUID()]: [randomUUID] is what [crypto.randomUUID()] returns where
    the function exists, [bytes] what [crypto.getRandomValues] writes into
    the array of sixteen bytes. *)
Definition getUUID (randomUUID : option string) (bytes : list Byte.byte)
  : string :=
  match randomUUID with
  | Some uuid => uuid
  | None => uuid_of_bytes bytes
  end.

(** [this._templateMarker] as the constructor of [Scope] sets it. *)
Definition templateMarker (randomUUID : option string) (bytes : list Byte.byte)
  : string :=
  "{{" +:+ getUUID randomUUID bytes +:+ "}}".

(** [new Scope(globalVariables)] *)
Definition new_Scope (globalVariables : Varibales)
  (randomUUID : option string) (bytes : list Byte.byte) : ScopeState :=
  new_scope globalVariables (templateMarker randomUUID bytes).

(** The two hexadecimal digits of a byte. *)
Definition high_digit (b : Byte.byte) : ascii := hex_digit (Byte.to_N b / 16).
Definition low_digit (b : Byte.byte) : ascii := hex_digit (Byte.to_N b mod 16).

(** Reading digits back, to tell bytes apart by their digits. *)
Definition digit_value (c : ascii) : N :=
  let n := N_of_ascii c in
  if n <? 58 then n - 48 else n - 87.

Definition byte_of_digits (high low : ascii) : option Byte.byte :=
  Byte.of_N (16 * digit_value high + digit_value low).

Definition is_hex_digit (c : ascii) : bool :=
  let n := N_of_ascii c in
  ((48 <=? n) && (n <=? 57)) || ((97 <=? n) && (n <=? 102)).

End UUID.

(** The positions of the hyphens in a universally unique identifier. *)
Definition is_hyphen_position (i : nat) : bool :=
  match i with
  | 8 | 13 | 18 | 23 => true
  | _ => false
  end%nat.

Module ScopeExamples.

Definition zero_bytes : list Byte.byte := repeat Byte.x00 16.

(** A parser that accepts nothing. *)
Definition reject_all (strings : list string) (marker : string) : option nat :=
  None.

End ScopeExamples.

(** * Properties *)

(** ** Bitwise operators on flags *)

Section Bits.

Lemma to_int32_mod (z : Z) : JS.to_int32 z mod 2 ^ 32 = z mod 2 ^ 32.
Proof.
  unfold JS.to_int32.
  rewrite Zminus_mod, Zmod_mod, <- Zminus_mod.
  f_equal. lia.
Qed.

Lemma to_int32_testbit (z n : Z) :
  0 <= n < 32 -> Z.testbit (JS.to_int32 z) n = Z.testbit z n.
Proof.
  intros Hn.
  rewrite <- (Z.mod_pow2_bits_low (JS.to_int32 z) 32 n) by lia.
  rewrite to_int32_mod.
  apply Z.mod_pow2_bits_low. lia.
Qed.

Lemma land_pow2 (x k : Z) :
  0 <= k -> Z.land x (2 ^ k) = if Z.testbit x k then 2 ^ k else 0.
Proof.
  intros Hk. apply Z.bits_inj'. intros n Hn.
  rewrite Z.land_spec, Z.pow2_bits_eqb by lia.
  destruct (Z.eqb_spec k n) as [->|Hne].
  - rewrite andb_true_r. destruct (Z.testbit x n) eqn:E.
    + rewrite Z.pow2_bits_true; auto.
    + rewrite Z.bits_0; auto.
  - rewrite andb_false_r. destruct (Z.testbit x k).
    + rewrite Z.pow2_bits_false; auto.
    + rewrite Z.bits_0; auto.
Qed.

Lemma bit_and_pow2 (x k : Z) :
  0 <= k < 31 ->
  JS.bit_and x (2 ^ k) = if Z.testbit x k then 2 ^ k else 0.
Proof.
  intros Hk. unfold JS.bit_and.
  assert (Hsmall : JS.to_int32 (2 ^ k) = 2 ^ k).
  { unfold JS.to_int32.
    assert (0 < 2 ^ k) by (apply Z.pow_pos_nonneg; lia).
    assert (2 ^ k < 2 ^ 31) by (apply Z.pow_lt_mono_r; lia).
    rewrite Z.mod_small; lia. }
  rewrite Hsmall, land_pow2 by lia.
  rewrite to_int32_testbit by lia.
  destruct (Z.testbit x k); [exact Hsmall | reflexivity].
Qed.

Lemma has_flag_testbit (k : Z) (b : Block) :
  0 <= k < 31 -> Block.has_flag (2 ^ k) b = Z.testbit (_flags b) k.
Proof.
  intros Hk. unfold Block.has_flag. rewrite bit_and_pow2 by lia.
  destruct (Z.testbit (_flags b) k); [|reflexivity].
  assert (0 < 2 ^ k) by (apply Z.pow_pos_nonneg; lia).
  destruct (Z.eqb_spec (2 ^ k) 0); [lia | reflexivity].
Qed.

Lemma has_MOUNTED (b : Block) :
  Block.has_flag BlockFlag.MOUNTED b = Z.testbit (_flags b) 0.
Proof. apply (has_flag_testbit 0). lia. Qed.

Lemma has_DIRTY (b : Block) :
  Block.has_flag BlockFlag.DIRTY b = Z.testbit (_flags b) 1.
Proof. apply (has_flag_testbit 1). lia. Qed.

Lemma has_UPDATING (b : Block) :
  Block.has_flag BlockFlag.UPDATING b = Z.testbit (_flags b) 2.
Proof. apply (has_flag_testbit 2). lia. Qed.

Lemma bit_or_testbit (x y n : Z) :
  0 <= n < 32 ->
  Z.testbit (JS.bit_or x y) n = Z.testbit x n || Z.testbit y n.
Proof.
  intros Hn. unfold JS.bit_or.
  rewrite to_int32_testbit, Z.lor_spec, !to_int32_testbit by lia.
  reflexivity.
Qed.

Lemma bit_xor_testbit (x y n : Z) :
  0 <= n < 32 ->
  Z.testbit (JS.bit_xor x y) n = xorb (Z.testbit x n) (Z.testbit y n).
Proof.
  intros Hn. unfold JS.bit_xor.
  rewrite to_int32_testbit, Z.lxor_spec, !to_int32_testbit by lia.
  reflexivity.
Qed.

End Bits.

(** ** Block *)

Section BlockFacts.

Import BlockFlag.

(** Before its final assignments [render] only touches the pending mount
    point and the cache of mount points. *)
Lemma render_inversion (b b' : Block) (w w' : Env) :
  Block.render b w = Ok (b', w') ->
  exists b1 : Block,
    b' = Block.commit (JS.bit_xor (_flags b) (JS.bit_or DIRTY UPDATING))
           (values (_type b (_pendingProps b)))
           (template (_type b (_pendingProps b))) b1
    /\ _pendingProps b1 = _pendingProps b
    /\ _memoizedMountPoint b1 = _memoizedMountPoint b
    /\ block_id b1 = block_id b.
Proof.
  unfold Block.render. intros H.
  set (r := _type b (_pendingProps b)) in *.
  destruct (_memoizedMountPoint b) as [memoized|] eqn:Emp; simpl in H.
  - destruct (negb (Block.same_template (_memoizedTemplate b) (template r))).
    + destruct (_cachedMountPoints b) as [cache|]; simpl in H.
      * destruct (cache !! tpl_id (template r)) as [mp|]; simpl in H.
        -- destruct (_memoizedTemplate b); simpl in H; [|discriminate].
           inversion H; subst; clear H. eexists; split; [reflexivity|].
           simpl. auto.
        -- destruct (Block.template_mount (template r) (values r) w)
             as [[mp w1]|]; simpl in H; [|discriminate].
           destruct (_memoizedTemplate b); simpl in H; [|discriminate].
           inversion H; subst; clear H. eexists; split; [reflexivity|].
           simpl. auto.
      * destruct (Block.template_mount (template r) (values r) w)
          as [[mp w1]|]; simpl in H; [|discriminate].
        destruct (_memoizedTemplate b); simpl in H; [|discriminate].
        inversion H; subst; clear H. eexists; split; [reflexivity|].
        simpl. auto.
    + destruct (Block.template_patch (template r) memoized
                  (_memoizedValues b) (values r) w) as [w1|];
        simpl in H; [|discriminate].
      inversion H; subst; clear H. eexists; split; [reflexivity|].
      auto.
  - destruct (Block.template_mount (template r) (values r) w)
      as [[mp w1]|]; simpl in H; [|discriminate].
    inversion H; subst; clear H. eexists; split; [reflexivity|].
    simpl. auto.
Qed.

(** What [render] commits: pending props, the values and the template the
    render function returned. *)
Lemma render_commits (b b' : Block) (w w' : Env) :
  Block.render b w = Ok (b', w') ->
  _memoizedProps b' = _pendingProps b
  /\ _memoizedValues b' = values (_type b (_pendingProps b))
  /\ _memoizedTemplate b' = Some (template (_type b (_pendingProps b))).
Proof.
  intros H. destruct (render_inversion _ _ _ _ H) as (b1 & -> & Hp & _).
  simpl. auto.
Qed.

(** The flags after [render]: [DIRTY] and [UPDATING] are both toggled,
    [MOUNTED] is kept. *)
Lemma render_toggles (b b' : Block) (w w' : Env) :
  Block.render b w = Ok (b', w') ->
  Block.has_flag DIRTY b' = negb (Block.has_flag DIRTY b)
  /\ Block.has_flag UPDATING b' = negb (Block.has_flag UPDATING b)
  /\ Block.has_flag MOUNTED b' = Block.has_flag MOUNTED b.
Proof.
  intros H. destruct (render_inversion _ _ _ _ H) as (b1 & -> & _).
  rewrite !has_DIRTY, !has_UPDATING, !has_MOUNTED.
  unfold Block.commit; cbn [_flags].
  rewrite !bit_xor_testbit by lia.
  change (JS.bit_or DIRTY UPDATING) with 6.
  change (Z.testbit 6 0) with false.
  change (Z.testbit 6 1) with true.
  change (Z.testbit 6 2) with true.
  rewrite xorb_false_r, !xorb_true_r. auto.
Qed.

(** After a render that was requested through [forceUpdate], both flags are
    clear. *)
Lemma render_clears_when_both_set (b b' : Block) (w w' : Env) :
  Block.render b w = Ok (b', w') ->
  Block.has_flag DIRTY b = true ->
  Block.has_flag UPDATING b = true ->
  Block.has_flag DIRTY b' = false /\ Block.has_flag UPDATING b' = false.
Proof.
  intros H Hd Hu. destruct (render_toggles _ _ _ _ H) as (-> & -> & _).
  rewrite Hd, Hu. auto.
Qed.

(** A render of a block whose [UPDATING] flag is clear sets it. *)
Lemma render_sets_UPDATING_when_clear (b b' : Block) (w w' : Env) :
  Block.render b w = Ok (b', w') ->
  Block.has_flag UPDATING b = false ->
  Block.has_flag UPDATING b' = true.
Proof.
  intros H Hu. destruct (render_toggles _ _ _ _ H) as (_ & -> & _).
  rewrite Hu. reflexivity.
Qed.

(** The example block is reached from a new block by the public methods. *)
Lemma mounted_dirty_reachable :
  Examples.to_mounted_dirty
  = Ok (Examples.mounted_dirty_block, Examples.mounted_dirty_env).
Proof. vm_compute. reflexivity. Qed.

(** C1.  [render] ends with [this._flags ^= DIRTY | UPDATING], which toggles
    the two flags instead of clearing them.  On a new block (flags [DIRTY])
    the first render returns with [UPDATING] set; on a mounted block whose
    props were changed by [setProps] (flags [MOUNTED | DIRTY]) [render]
    returns with [DIRTY] clear, [UPDATING] set, flags [MOUNTED | UPDATING],
    while the props, values and template are committed as memoized. *)
Theorem render_mounted_dirty_leaves_UPDATING :
  (exists b' w',
     Block.render Examples.fresh_block Examples.env0 = Ok (b', w')
     /\ _flags b' = UPDATING
     /\ Block.has_flag UPDATING b' = true)
  /\ Block.has_flag MOUNTED Examples.mounted_dirty_block = true
  /\ Block.has_flag DIRTY Examples.mounted_dirty_block = true
  /\ Block.has_flag UPDATING Examples.mounted_dirty_block = false
  /\ exists b' w',
       Block.render Examples.mounted_dirty_block Examples.mounted_dirty_env
       = Ok (b', w')
       /\ _flags b' = JS.bit_or MOUNTED UPDATING
       /\ Block.has_flag DIRTY b' = false
       /\ Block.has_flag UPDATING b' = true
       /\ _memoizedProps b' = VNum 3
       /\ _memoizedValues b' = [VNum 3]
       /\ _memoizedTemplate b' = Some Examples.template_a.
Proof.
  split; [|split; [|split; [|split]]].
  - eexists _, _. split; [vm_compute; reflexivity|].
    split; vm_compute; reflexivity.
  - vm_compute; reflexivity.
  - vm_compute; reflexivity.
  - vm_compute; reflexivity.
  - eexists _, _. split; [vm_compute; reflexivity|].
    repeat split; vm_compute; reflexivity.
Qed.

(** [forceUpdate] returns at once when the guard fails. *)
Lemma forceUpdate_noop (b : Block) (w : Env) :
  Block.has_flag MOUNTED b = false \/ Block.has_flag UPDATING b = true ->
  Block.forceUpdate b w = (b, w).
Proof.
  unfold Block.forceUpdate, Block.has_flag. intros [H|H].
  - apply negb_false_iff in H. rewrite H. reflexivity.
  - rewrite H, orb_true_r. reflexivity.
Qed.

(** [forceUpdate] on a mounted block that is not updating. *)
Lemma forceUpdate_acts (b : Block) (w : Env) :
  Block.has_flag MOUNTED b = true ->
  Block.has_flag UPDATING b = false ->
  Block.forceUpdate b w
  = (Block.with_flags
       (JS.bit_or (_flags b) (JS.bit_or DIRTY UPDATING)) b,
     emit (RequestUpdate (block_id b)) w).
Proof.
  unfold Block.forceUpdate, Block.has_flag. intros Hm Hu.
  apply negb_true_iff in Hm. apply negb_false_iff in Hu.
  rewrite Hm, Hu. reflexivity.
Qed.

Lemma forceUpdate_flags (b : Block) :
  let b' := Block.with_flags
              (JS.bit_or (_flags b) (JS.bit_or DIRTY UPDATING)) b in
  Block.has_flag DIRTY b' = true
  /\ Block.has_flag UPDATING b' = true
  /\ Block.has_flag MOUNTED b' = Block.has_flag MOUNTED b.
Proof.
  intros b'. subst b'.
  rewrite !has_DIRTY, !has_UPDATING, !has_MOUNTED.
  unfold Block.with_flags; cbn [_flags].
  rewrite !bit_or_testbit by lia.
  change (JS.bit_or DIRTY UPDATING) with 6.
  change (Z.testbit 6 0) with false.
  change (Z.testbit 6 1) with true.
  change (Z.testbit 6 2) with true.
  rewrite !orb_true_r, orb_false_r. auto.
Qed.

(** Once [UPDATING] is set, further calls change nothing. *)
Lemma forceUpdate_times_noop (n : nat) (b : Block) (w : Env) :
  Block.has_flag UPDATING b = true ->
  Block.forceUpdate_times n b w = (b, w).
Proof.
  intros Hu. induction n as [|n IH]; [reflexivity|].
  simpl. rewrite forceUpdate_noop by auto. exact IH.
Qed.

(** C5.  [forceUpdate] changes nothing and requests nothing unless [MOUNTED]
    is set and [UPDATING] is clear; when it acts it sets [DIRTY] and
    [UPDATING], leaves every other field alone and calls
    [updater.requestUpdate] once; and any number [n >= 1] of consecutive
    calls on such a block leaves the same block and exactly that one
    request. *)
Theorem forceUpdate_guard_and_dedup (b : Block) (w : Env) :
  (Block.has_flag MOUNTED b = false \/ Block.has_flag UPDATING b = true ->
   Block.forceUpdate b w = (b, w))
  /\ (Block.has_flag MOUNTED b = true ->
      Block.has_flag UPDATING b = false ->
      exists b' : Block,
        Block.forceUpdate b w = (b', emit (RequestUpdate (block_id b)) w)
        /\ b' = Block.with_flags (_flags b') b
        /\ Block.has_flag MOUNTED b' = true
        /\ Block.has_flag DIRTY b' = true
        /\ Block.has_flag UPDATING b' = true
        /\ forall n : nat,
             (1 <= n)%nat ->
             Block.forceUpdate_times n b w
             = (b', emit (RequestUpdate (block_id b)) w)
             /\ effects (snd (Block.forceUpdate_times n b w))
                = effects w ++ [RequestUpdate (block_id b)]
             /\ Block.requests (block_id b)
                  (snd (Block.forceUpdate_times n b w))
                = S (Block.requests (block_id b) w)).
Proof.
  split; [apply forceUpdate_noop|].
  intros Hm Hu.
  destruct (forceUpdate_flags b) as (Hd' & Hu' & Hm').
  eexists. split; [apply forceUpdate_acts; assumption|].
  split; [reflexivity|].
  split; [rewrite Hm'; exact Hm|].
  split; [exact Hd'|]. split; [exact Hu'|].
  intros [|n] Hn; [lia|].
  assert (E : Block.forceUpdate_times (S n) b w
              = (Block.with_flags
                   (JS.bit_or (_flags b) (JS.bit_or DIRTY UPDATING)) b,
                 emit (RequestUpdate (block_id b)) w)).
  { simpl. rewrite forceUpdate_acts by assumption.
    apply forceUpdate_times_noop. exact Hu'. }
  split; [exact E|]. rewrite E. simpl. split; [reflexivity|].
  unfold Block.requests. simpl.
  rewrite filter_app, length_app.
  rewrite filter_cons_True, filter_nil by reflexivity. simpl. lia.
Qed.

(** An instance of C5: three calls on a mounted block, one request. *)
Lemma forceUpdate_guard_and_dedup_witness :
  effects (snd (Block.forceUpdate_times 3 Examples.mounted_clean_block
                  Examples.env0))
  = [RequestUpdate 1].
Proof.
  destruct (forceUpdate_guard_and_dedup Examples.mounted_clean_block
              Examples.env0) as [_ H].
  destruct (H eq_refl eq_refl) as (b' & _ & _ & _ & _ & _ & Hn).
  destruct (Hn 3%nat ltac:(lia)) as (_ & He & _).
  exact He.
Defined.

End BlockFacts.

(** ** Choice directive *)

Section ChoiceFacts.

Lemma same_value_zero_refl (k : Value) : JS.same_value_zero k k = true.
Proof. unfold JS.same_value_zero. apply bool_decide_eq_true. reflexivity. Qed.

Lemma same_value_zero_sym (a b : Value) :
  JS.same_value_zero a b = JS.same_value_zero b a.
Proof. unfold JS.same_value_zero. apply bool_decide_ext. split; congruence. Qed.

Lemma same_value_zero_trans (a b c : Value) :
  JS.same_value_zero a b = true ->
  JS.same_value_zero b c = JS.same_value_zero a c.
Proof.
  unfold JS.same_value_zero. intros H. apply bool_decide_eq_true in H.
  rewrite H. reflexivity.
Qed.

Lemma object_is_sym (a b : Value) : JS.object_is a b = JS.object_is b a.
Proof. unfold JS.object_is. apply bool_decide_ext. split; congruence. Qed.

(** [map.set(k, v)] followed by [map.get(k')] for an equal key. *)
Lemma get_set_same {V : Type} (k k' : Value) (v : V) (m : JSMap.t V) :
  JS.same_value_zero k k' = true -> JSMap.get k' (JSMap.set k v m) = Some v.
Proof.
  intros Hk. induction m as [|[k0 v0] m IH]; simpl.
  - unfold JS.same_value_zero in *. apply bool_decide_eq_true in Hk.
    rewrite bool_decide_eq_true_2; [reflexivity|].
    rewrite <- Hk. destruct k; reflexivity.
  - destruct (JS.same_value_zero k0 k) eqn:E; simpl.
    + rewrite <- (same_value_zero_trans k0 k k' E), Hk. reflexivity.
    + destruct (JS.same_value_zero k0 k') eqn:E'; [|exact IH].
      rewrite same_value_zero_sym in Hk.
      rewrite <- (same_value_zero_trans k0 k' k E'), Hk in E.
      discriminate.
Qed.

(** ... and for a different key. *)
Lemma get_set_other {V : Type} (k k' : Value) (v : V) (m : JSMap.t V) :
  JS.same_value_zero k k' = false ->
  JSMap.get k' (JSMap.set k v m) = JSMap.get k' m.
Proof.
  intros Hk. induction m as [|[k0 v0] m IH]; simpl.
  - replace (JS.same_value_zero (JS.normalize_zero k) k')
      with (JS.same_value_zero k k'); [rewrite Hk; reflexivity|].
    unfold JS.same_value_zero. apply bool_decide_ext.
    destruct k; simpl; reflexivity.
  - destruct (JS.same_value_zero k0 k) eqn:E; simpl.
    + rewrite <- (same_value_zero_trans k0 k k' E), Hk. reflexivity.
    + destruct (JS.same_value_zero k0 k'); [reflexivity|exact IH].
Qed.

Lemma since_call (h h' : Heap) (l : list BindingCall) :
  calls h' = calls h ++ l -> since h h' = l.
Proof. unfold since. intros ->. apply drop_app_length. Qed.

(** [updateBinding] hands back the binding it was given, or disconnects
    it. *)
Lemma updateBinding_same_or_disconnect
  (b : Binding) (v : Value) (force : bool) (h : Heap) :
  (updateBinding b v force h = (b, call (Bind b v force) h)
   /\ kind_of v = binding_kind b)
  \/ (exists b',
        updateBinding b v force h
        = (b', {| next_binding := S (next_binding h);
                  calls := calls h ++ [Unbind b; Disconnect b; Create b' v] |})
        /\ binding_id b' = next_binding h
        /\ kind_of v <> binding_kind b).
Proof.
  unfold updateBinding. destruct (decide (kind_of v = binding_kind b)).
  - left. auto.
  - right. eexists. split.
    + unfold createBinding, call. simpl. rewrite <- !app_assoc. reflexivity.
    + split; [reflexivity|assumption].
Qed.

Lemma updateBinding_calls (b : Binding) (v : Value) (force : bool) (h : Heap) :
  exists l,
    calls (snd (updateBinding b v force h)) = calls h ++ l
    /\ (fst (updateBinding b v force h) = b \/ Disconnect b ∈ l).
Proof.
  destruct (updateBinding_same_or_disconnect b v force h)
    as [[-> _]|(b' & -> & _)]; simpl; eexists; (split; [reflexivity|]).
  - left. reflexivity.
  - right. apply elem_of_cons. right. apply elem_of_cons. left. reflexivity.
Qed.

Lemma createBinding_calls (part : nat) (v : Value) (h : Heap) :
  calls (snd (createBinding part v h))
  = calls h ++ [Create (fst (createBinding part v h)) v].
Proof. reflexivity. Qed.

(** [bind] when the key of the directive is not the current key. *)
Lemma bind_key_change (cb : ChoiceBinding.t) (h : Heap) :
  JS.object_is (ChoiceBinding._currentKey cb)
    (choice_key (ChoiceBinding._directive cb)) = false ->
  let d := ChoiceBinding._directive cb in
  let cache := JSMap.set (ChoiceBinding._currentKey cb)
                 (ChoiceBinding._currentBinding cb)
                 (ChoiceBinding._cachedBindings cb) in
  let h1 := call (Unbind (ChoiceBinding._currentBinding cb)) h in
  let r := match JSMap.get (choice_key d) cache with
           | Some cachedBinding =>
               updateBinding cachedBinding
                 (choice_factory d (choice_key d)) true h1
           | None =>
               createBinding
                 (binding_part (ChoiceBinding._currentBinding cb))
                 (choice_factory d (choice_key d)) h1
           end in
  ChoiceBinding.bind cb h
  = ({| ChoiceBinding._currentBinding := fst r;
        ChoiceBinding._currentKey := choice_key d;
        ChoiceBinding._directive := d;
        ChoiceBinding._cachedBindings := cache |}, snd r).
Proof.
  intros Hk. unfold ChoiceBinding.bind. rewrite Hk. simpl.
  destruct (JSMap.get _ _) as [c|].
  - destruct (updateBinding _ _ _ _). reflexivity.
  - reflexivity.
Qed.

Lemma bind_key_change_calls (cb : ChoiceBinding.t) (h : Heap) :
  JS.object_is (ChoiceBinding._currentKey cb)
    (choice_key (ChoiceBinding._directive cb)) = false ->
  exists l,
    calls (snd (ChoiceBinding.bind cb h))
    = calls h ++ Unbind (ChoiceBinding._currentBinding cb) :: l
    /\ forall c,
         JSMap.get (choice_key (ChoiceBinding._directive cb))
           (ChoiceBinding._cachedBindings (fst (ChoiceBinding.bind cb h)))
         = Some c ->
         ChoiceBinding._currentBinding (fst (ChoiceBinding.bind cb h)) = c
         \/ Disconnect c ∈ l.
Proof.
  intros Hk. rewrite (bind_key_change cb h Hk). simpl.
  destruct (JSMap.get _ _) as [c|] eqn:E.
  - destruct (updateBinding_calls c
                (choice_factory (ChoiceBinding._directive cb)
                   (choice_key (ChoiceBinding._directive cb))) true
                (call (Unbind (ChoiceBinding._currentBinding cb)) h))
      as (l & Hl & Hc).
    exists l. rewrite Hl. simpl. rewrite <- app_assoc. split; [reflexivity|].
    intros c' [= <-]. exact Hc.
  - eexists. rewrite createBinding_calls. simpl. rewrite <- app_assoc.
    split; [reflexivity|]. intros c' [=].
Qed.

(** C2.  On a key change [bind] unbinds the current binding first, stores
    it in the cache under the old key, and takes the binding for the new key
    from the cache through [updateBinding] with the force flag when the cache
    has one, from [createBinding] otherwise.  Switching from key [A] to
    another key and back to [A] makes the binding that was current for [A]
    current again, the same object, bound by force, unless that binding was
    disconnected on the way. *)
Theorem choice_cache_reuse :
  (forall (cb : ChoiceBinding.t) (d : ChoiceDirective) (h : Heap),
     JS.object_is (ChoiceBinding._currentKey cb) (choice_key d) = false ->
     let old := ChoiceBinding._currentBinding cb in
     let r := ChoiceBinding.rebind d cb h in
     let h1 := call (Unbind old) h in
     let v := choice_factory d (choice_key d) in
     ChoiceBinding._cachedBindings (fst r)
     = JSMap.set (ChoiceBinding._currentKey cb) old
         (ChoiceBinding._cachedBindings cb)
     /\ JSMap.get (ChoiceBinding._currentKey cb)
          (ChoiceBinding._cachedBindings (fst r)) = Some old
     /\ ChoiceBinding._currentKey (fst r) = choice_key d
     /\ (ChoiceBinding._currentBinding (fst r), snd r)
        = match JSMap.get (choice_key d)
                  (ChoiceBinding._cachedBindings (fst r)) with
          | Some cachedBinding => updateBinding cachedBinding v true h1
          | None => createBinding (binding_part old) v h1
          end)
  /\ (forall (cb : ChoiceBinding.t) (dB dA : ChoiceDirective) (h : Heap),
       let A := ChoiceBinding._currentKey cb in
       let bA := ChoiceBinding._currentBinding cb in
       let r1 := ChoiceBinding.rebind dB cb h in
       let r2 := ChoiceBinding.rebind dA (fst r1) (snd r1) in
       JS.object_is A (choice_key dB) = false ->
       choice_key dA = A ->
       Disconnect bA ∉ since h (snd r2) ->
       ChoiceBinding._currentBinding (fst r2) = bA
       /\ ChoiceBinding._currentKey (fst r2) = A
       /\ Bind bA (choice_factory dA A) true ∈ since h (snd r2)).
Proof.
  split.
  - intros cb d h Hk old r h1 v. subst r. unfold ChoiceBinding.rebind.
    rewrite (bind_key_change (ChoiceBinding.set_value d cb) h Hk). simpl.
    split; [reflexivity|].
    split; [apply get_set_same, same_value_zero_refl|].
    split; [reflexivity|].
    destruct (JSMap.get _ _) as [c|]; [|reflexivity].
    destruct (updateBinding _ _ _ _); reflexivity.
  - intros cb dB dA h A bA r1 r2 HAB HA Hno.
    assert (HBA : JS.object_is (choice_key dB) (choice_key dA) = false)
      by (rewrite HA, object_is_sym; exact HAB).
    (* the first rebind *)
    destruct (bind_key_change_calls (ChoiceBinding.set_value dB cb) h HAB)
      as (l1 & Hl1 & Hc1).
    assert (E1 := bind_key_change (ChoiceBinding.set_value dB cb) h HAB).
    fold (ChoiceBinding.rebind dB cb h) in Hl1, Hc1, E1. fold r1 in Hl1, Hc1, E1.
    simpl in Hl1, Hc1, E1.
    assert (Hcache1 : ChoiceBinding._cachedBindings (fst r1)
                      = JSMap.set A bA (ChoiceBinding._cachedBindings cb))
      by (rewrite E1; reflexivity).
    assert (Hkey1 : ChoiceBinding._currentKey (fst r1) = choice_key dB)
      by (rewrite E1; reflexivity).
    clear E1.
    (* the second rebind *)
    assert (HBA' : JS.object_is
                     (ChoiceBinding._currentKey
                        (ChoiceBinding.set_value dA (fst r1)))
                     (choice_key
                        (ChoiceBinding._directive
                           (ChoiceBinding.set_value dA (fst r1)))) = false)
      by (simpl; rewrite Hkey1; exact HBA).
    assert (E2 := bind_key_change
                    (ChoiceBinding.set_value dA (fst r1)) (snd r1) HBA').
    fold (ChoiceBinding.rebind dA (fst r1) (snd r1)) in E2.
    fold r2 in E2. simpl in E2.
    (* the binding found for [A] on the way back *)
    assert (Hfound :
              Disconnect bA ∈ l1
              \/ JSMap.get (choice_key dA)
                   (JSMap.set (ChoiceBinding._currentKey (fst r1))
                      (ChoiceBinding._currentBinding (fst r1))
                      (ChoiceBinding._cachedBindings (fst r1))) = Some bA).
    { rewrite Hkey1, HA.
      destruct (JS.same_value_zero (choice_key dB) A) eqn:Esvz.
      - (* the two keys are the two zeros: one entry serves both *)
        assert (G1 : JSMap.get (choice_key dB)
                       (ChoiceBinding._cachedBindings (fst r1)) = Some bA).
        { rewrite Hcache1. apply get_set_same.
          rewrite same_value_zero_sym. exact Esvz. }
        destruct (Hc1 _ G1) as [Hcur|Hd]; [|auto].
        right. rewrite Hcur. apply get_set_same. exact Esvz.
      - right. rewrite get_set_other by exact Esvz.
        rewrite Hcache1. apply get_set_same, same_value_zero_refl. }
    assert (Hsince1 : forall l,
              calls (snd r2) = calls (snd r1) ++ l ->
              since h (snd r2) = (Unbind bA :: l1) ++ l).
    { intros l Hl. apply since_call. rewrite Hl, Hl1, <- app_assoc.
      reflexivity. }
    destruct Hfound as [Hd|G].
    { exfalso. apply Hno.
      assert (Hext : exists l, calls (snd r2) = calls (snd r1) ++ l).
      { destruct (bind_key_change_calls
                    (ChoiceBinding.set_value dA (fst r1)) (snd r1) HBA')
          as (l2 & Hl2 & _).
        eexists. exact Hl2. }
      destruct Hext as (l & Hl). rewrite (Hsince1 _ Hl).
      apply elem_of_app. left. apply elem_of_cons. right. exact Hd. }
    rewrite G in E2.
    destruct (updateBinding_same_or_disconnect bA
                (choice_factory dA (choice_key dA)) true
                (call (Unbind (ChoiceBinding._currentBinding (fst r1)))
                   (snd r1)))
      as [[Eu _]|(b' & Eu & _)]; rewrite Eu in E2.
    + assert (Hl : calls (snd r2)
                   = calls (snd r1)
                       ++ [Unbind (ChoiceBinding._currentBinding (fst r1));
                           Bind bA (choice_factory dA (choice_key dA)) true]).
      { rewrite E2. unfold call. cbn [fst snd calls].
        rewrite <- app_assoc. reflexivity. }
      rewrite (Hsince1 _ Hl), E2. cbn [fst snd ChoiceBinding._currentBinding
                                         ChoiceBinding._currentKey].
      split; [reflexivity|]. split; [exact HA|].
      rewrite HA. apply elem_of_app. right.
      apply elem_of_cons. right. apply elem_of_cons. left. reflexivity.
    + exfalso. apply Hno.
      assert (Hl : calls (snd r2)
                   = calls (snd r1)
                       ++ [Unbind (ChoiceBinding._currentBinding (fst r1));
                           Unbind bA; Disconnect bA;
                           Create b' (choice_factory dA (choice_key dA))]).
      { rewrite E2. unfold call. cbn [fst snd calls].
        rewrite <- app_assoc. reflexivity. }
      rewrite (Hsince1 _ Hl). apply elem_of_app. right.
      do 2 (apply elem_of_cons; right). apply elem_of_cons. left. reflexivity.
Qed.

(** An instance of C2: ["a"], then ["b"], then ["a"] again. *)
Lemma choice_cache_reuse_witness :
  ChoiceBinding._currentBinding
    (fst (ChoiceBinding.rebind (Examples.choice_of (VStr "a"))
            (fst Examples.choice_a_then_b) (snd Examples.choice_a_then_b)))
  = Examples.binding0.
Proof.
  destruct choice_cache_reuse as [_ H].
  refine (proj1 (H (fst (ChoiceBinding.directiveTag
                           (Examples.choice_of (VStr "a")) 0 Examples.heap0))
                   (Examples.choice_of (VStr "b"))
                   (Examples.choice_of (VStr "a"))
                   Examples.heap0 _ _ _)).
  - reflexivity.
  - reflexivity.
  - apply (bool_decide_unpack _). vm_compute. exact I.
Defined.

(** The loop of [unbind] and [disconnect] calls [disconnect] on the cached
    bindings whose key is not strictly equal to the key of the directive, in
    the order of the cache. *)
Lemma disconnect_cached_calls (key : Value) (entries : JSMap.t Binding)
  (h : Heap) :
  calls (ChoiceBinding.disconnect_cached key entries h)
  = calls h
      ++ map (fun e => Disconnect e.2)
           (filter (fun e => JS.strict_equals e.1 key = false) entries).
Proof.
  revert h. induction entries as [|[k b] rest IH]; intros h.
  - simpl. rewrite app_nil_r. reflexivity.
  - cbn [ChoiceBinding.disconnect_cached].
    destruct (JS.strict_equals k key) eqn:E; cbn [negb].
    + rewrite IH, filter_cons_False by (simpl; congruence). reflexivity.
    + rewrite IH, filter_cons_True by exact E.
      unfold call. cbn [calls map snd]. rewrite <- app_assoc. reflexivity.
Qed.

(** Away from [NaN], strict equality is the equality of [Map] keys. *)
Lemma strict_equals_same_value_zero (k key : Value) :
  key <> VNaN -> JS.strict_equals k key = JS.same_value_zero k key.
Proof.
  intros Hkey. unfold JS.strict_equals, JS.same_value_zero.
  destruct k; destruct key; try reflexivity; try congruence.
Qed.

(** So for a key other than [NaN] the cached bindings disconnected are those
    stored under another key. *)
Lemma disconnect_cached_other_keys (key : Value) (entries : JSMap.t Binding)
  (h : Heap) :
  key <> VNaN ->
  since h (ChoiceBinding.disconnect_cached key entries h)
  = map (fun e => Disconnect e.2)
      (filter (fun e => JS.same_value_zero e.1 key = false) entries).
Proof.
  intros Hkey. rewrite (since_call _ _ _ (disconnect_cached_calls _ _ _)).
  f_equal. apply list_filter_iff. intros [k b]. simpl.
  rewrite strict_equals_same_value_zero by exact Hkey. reflexivity.
Qed.

(** C6.  After [choice(NaN, f)] was rebound with key [1] and with [NaN]
    again, the cache holds the current binding under [NaN] and the other one
    under [1].  The directive key is [NaN], and [key !== NaN] holds for every
    key, [NaN] included: [disconnect] and [unbind] call [disconnect] on the
    binding of the active key too. *)
Theorem choice_disconnects_active_NaN_binding :
  let cb := fst Examples.choice_nan_round_trip in
  let h := snd Examples.choice_nan_round_trip in
  choice_key (ChoiceBinding._directive cb) = VNaN
  /\ ChoiceBinding._currentKey cb = VNaN
  /\ ChoiceBinding._currentBinding cb = Examples.binding0
  /\ ChoiceBinding._cachedBindings cb
     = [(VNaN, Examples.binding0); (VNum 1, Examples.binding1)]
  /\ since h (ChoiceBinding.disconnect cb h)
     = [Disconnect Examples.binding0; Disconnect Examples.binding1]
  /\ since h (ChoiceBinding.unbind cb h)
     = [Unbind Examples.binding0; Disconnect Examples.binding0;
        Disconnect Examples.binding1].
Proof. vm_compute. repeat split. Qed.

End ChoiceFacts.

(** ** Condition directive *)

Section ConditionFacts.

Lemma resolve_calls {T : Type} (x : ValueOrFunction T) (h : Heap) :
  calls (snd (resolve x h)) = calls h ++ invocations x
  /\ next_binding (snd (resolve x h)) = next_binding h.
Proof.
  destruct x; simpl; [rewrite app_nil_r|]; auto.
Qed.

Lemma unbind_opt_calls (o : option Binding) (h : Heap) :
  calls (ConditionBinding.unbind_opt o h) = calls h ++ opt_call Unbind o
  /\ next_binding (ConditionBinding.unbind_opt o h) = next_binding h.
Proof.
  destruct o; simpl; [|rewrite app_nil_r]; auto.
Qed.

Lemma disconnect_opt_calls (o : option Binding) (h : Heap) :
  calls (ConditionBinding.disconnect_opt o h)
  = calls h ++ opt_call Disconnect o.
Proof.
  destruct o; simpl; [|rewrite app_nil_r]; auto.
Qed.

(** What [updateBinding] on the existing sub-binding of a branch, or
    [createBinding] without one, adds to the log. *)
Lemma branch_binding_calls (part : nat) (existing : option Binding)
  (v : Value) (h : Heap) :
  let r := match existing with
           | Some s => updateBinding s v false h
           | None => createBinding part v h
           end in
  calls (snd r) = calls h ++ binding_calls existing v (fst r)
  /\ ((existing = Some (fst r) /\ kind_of v = binding_kind (fst r))
      \/ (binding_id (fst r) = next_binding h
          /\ forall s, existing = Some s -> kind_of v <> binding_kind s)).
Proof.
  destruct existing as [s|]; simpl.
  - unfold binding_calls.
    destruct (updateBinding_same_or_disconnect s v false h)
      as [[-> Hk]|(b' & -> & Hid & Hk)]; simpl.
    + rewrite decide_True by exact Hk. split; [reflexivity|].
      left. auto.
    + rewrite decide_False by exact Hk. split; [reflexivity|].
      right. split; [exact Hid|]. intros s' [= <-]. exact Hk.
  - split; [reflexivity|]. right. split; [reflexivity|]. discriminate.
Qed.

(** The calls of one [bind], in order: the condition is resolved, then the
    producer of the selected branch, the sub-binding of the other branch is
    unbound, and the selected branch is bound. *)
Lemma condition_bind_calls (cb : ConditionBinding.t) (h : Heap) :
  let d := ConditionBinding._directive cb in
  let c := fst (resolve (condition d) h) in
  let chosen := if c then trueCase d else falseCase d in
  let v := fst (resolve chosen (snd (resolve (condition d) h))) in
  let selected := if c then ConditionBinding._trueBinding cb
                  else ConditionBinding._falseBinding cb in
  let other := if c then ConditionBinding._falseBinding cb
               else ConditionBinding._trueBinding cb in
  let r := ConditionBinding.bind cb h in
  exists b' : Binding,
    (if c then ConditionBinding._trueBinding (fst r)
     else ConditionBinding._falseBinding (fst r)) = Some b'
    /\ (if c then ConditionBinding._falseBinding (fst r)
        else ConditionBinding._trueBinding (fst r)) = other
    /\ ((selected = Some b' /\ kind_of v = binding_kind b')
        \/ (binding_id b' = next_binding h
            /\ forall s, selected = Some s -> kind_of v <> binding_kind s))
    /\ since h (snd r)
       = invocations (condition d) ++ invocations chosen
           ++ opt_call Unbind other ++ binding_calls selected v b'.
Proof.
  intros d c chosen v selected other r.
  subst r v selected other chosen c. unfold ConditionBinding.bind. fold d.
  destruct (resolve_calls (condition d) h) as [Hc1 Hn1].
  destruct (resolve (condition d) h) as [c0 h1].
  cbn [fst snd] in *.
  destruct c0.
  - destruct (resolve (trueCase d) h1) as [v h2] eqn:Ev.
    destruct (resolve_calls (trueCase d) h1) as [Hc2 Hn2].
    rewrite Ev in Hc2, Hn2. simpl in Hc2, Hn2.
    destruct (unbind_opt_calls (ConditionBinding._falseBinding cb) h2)
      as [Hc3 Hn3].
    destruct (branch_binding_calls (ConditionBinding._part cb)
                (ConditionBinding._trueBinding cb) v
                (ConditionBinding.unbind_opt
                   (ConditionBinding._falseBinding cb) h2)) as [Hc4 Hfresh].
    destruct (match ConditionBinding._trueBinding cb with
              | Some tb => _
              | None => _
              end) as [b h4].
    simpl in Hc4, Hfresh |- *. exists b.
    split; [reflexivity|]. split; [reflexivity|].
    split; [rewrite Hn3, Hn2, Hn1 in Hfresh; exact Hfresh|].
    apply since_call. rewrite Hc4, Hc3, Hc2, Hc1, <- !app_assoc.
    reflexivity.
  - destruct (resolve (falseCase d) h1) as [v h2] eqn:Ev.
    destruct (resolve_calls (falseCase d) h1) as [Hc2 Hn2].
    rewrite Ev in Hc2, Hn2. simpl in Hc2, Hn2.
    destruct (unbind_opt_calls (ConditionBinding._trueBinding cb) h2)
      as [Hc3 Hn3].
    destruct (branch_binding_calls (ConditionBinding._part cb)
                (ConditionBinding._falseBinding cb) v
                (ConditionBinding.unbind_opt
                   (ConditionBinding._trueBinding cb) h2)) as [Hc4 Hfresh].
    destruct (match ConditionBinding._falseBinding cb with
              | Some fb => _
              | None => _
              end) as [b h4].
    simpl in Hc4, Hfresh |- *. exists b.
    split; [reflexivity|]. split; [reflexivity|].
    split; [rewrite Hn3, Hn2, Hn1 in Hfresh; exact Hfresh|].
    apply since_call. rewrite Hc4, Hc3, Hc2, Hc1, <- !app_assoc.
    reflexivity.
Qed.

Lemma condition_unbind_calls (cb : ConditionBinding.t) (h : Heap) :
  since h (ConditionBinding.unbind cb h)
  = if truthy (condition (ConditionBinding._directive cb))
    then opt_call Unbind (ConditionBinding._trueBinding cb)
           ++ opt_call Disconnect (ConditionBinding._falseBinding cb)
    else opt_call Unbind (ConditionBinding._falseBinding cb)
           ++ opt_call Disconnect (ConditionBinding._trueBinding cb).
Proof.
  unfold ConditionBinding.unbind.
  destruct (truthy _); apply since_call;
    rewrite disconnect_opt_calls, (proj1 (unbind_opt_calls _ _)),
      <- app_assoc; reflexivity.
Qed.

Lemma condition_disconnect_calls (cb : ConditionBinding.t) (h : Heap) :
  since h (ConditionBinding.disconnect cb h)
  = opt_call Disconnect (ConditionBinding._trueBinding cb)
      ++ opt_call Disconnect (ConditionBinding._falseBinding cb).
Proof.
  unfold ConditionBinding.disconnect. apply since_call.
  rewrite !disconnect_opt_calls, <- app_assoc. reflexivity.
Qed.

Lemma filter_target_invocations {T : Type} (x : ValueOrFunction T)
  (o : Binding) :
  filter (fun c => target c = Some o) (invocations x) = [].
Proof. destruct x; reflexivity. Qed.

Lemma filter_binds_invocations {T : Type} (x : ValueOrFunction T) :
  filter (fun c => binds c = true) (invocations x) = [].
Proof. destruct x; reflexivity. Qed.

(** C3.  One [bind] leaves the other branch's field alone and makes, after
    resolving the condition and the producer of the selected branch, these
    calls: [unbind] on the sub-binding of the other branch when there is one,
    then the calls of [updateBinding] on the sub-binding of the selected
    branch or of [createBinding].  Exactly one of them binds a value, and it
    binds the value of the selected branch; the only call on the other
    branch's existing sub-binding is the [unbind].  [disconnect] disconnects
    the sub-bindings of both branches, and [unbind], which unbinds the
    sub-binding of the branch selected by the truthiness of the stored
    condition, disconnects the sub-binding of the other branch. *)
Theorem condition_branch_isolation (cb : ConditionBinding.t) (h : Heap) :
  let d := ConditionBinding._directive cb in
  let c := fst (resolve (condition d) h) in
  let chosen := if c then trueCase d else falseCase d in
  let v := fst (resolve chosen (snd (resolve (condition d) h))) in
  let selected := if c then ConditionBinding._trueBinding cb
                  else ConditionBinding._falseBinding cb in
  let other := if c then ConditionBinding._falseBinding cb
               else ConditionBinding._trueBinding cb in
  let r := ConditionBinding.bind cb h in
  (exists b' : Binding,
     (if c then ConditionBinding._trueBinding (fst r)
      else ConditionBinding._falseBinding (fst r)) = Some b'
     /\ (if c then ConditionBinding._falseBinding (fst r)
         else ConditionBinding._trueBinding (fst r)) = other
     /\ since h (snd r)
        = invocations (condition d) ++ invocations chosen
            ++ opt_call Unbind other ++ binding_calls selected v b'
     /\ (filter (fun e => binds e = true) (since h (snd r))
         = [Bind b' v false]
         \/ filter (fun e => binds e = true) (since h (snd r))
            = [Create b' v])
     /\ forall o : Binding,
          other = Some o ->
          selected <> Some o ->
          (binding_id o < next_binding h)%nat ->
          filter (fun e => target e = Some o) (since h (snd r)) = [Unbind o])
  /\ since h (ConditionBinding.disconnect cb h)
     = opt_call Disconnect (ConditionBinding._trueBinding cb)
         ++ opt_call Disconnect (ConditionBinding._falseBinding cb)
  /\ since h (ConditionBinding.unbind cb h)
     = if truthy (condition d)
       then opt_call Unbind (ConditionBinding._trueBinding cb)
              ++ opt_call Disconnect (ConditionBinding._falseBinding cb)
       else opt_call Unbind (ConditionBinding._falseBinding cb)
              ++ opt_call Disconnect (ConditionBinding._trueBinding cb).
Proof.
  intros d c chosen v selected other r.
  split; [|split; [apply condition_disconnect_calls
                  |apply condition_unbind_calls]].
  destruct (condition_bind_calls cb h) as (b' & Hsel & Hoth & Hfresh & Hcalls).
  fold d c chosen v selected other r in Hsel, Hoth, Hfresh, Hcalls.
  exists b'. split; [exact Hsel|]. split; [exact Hoth|].
  split; [exact Hcalls|]. rewrite Hcalls. split.
  - rewrite !filter_app, !filter_binds_invocations. simpl.
    replace (filter (fun e => binds e = true) (opt_call Unbind other))
      with (@nil BindingCall) by (destruct other; reflexivity).
    simpl. unfold binding_calls.
    destruct selected as [s|]; [|right; reflexivity].
    destruct (decide (kind_of v = binding_kind s)) as [Hk|Hk].
    + left. destruct Hfresh as [[[= ->] _]|[_ Hne]]; [reflexivity|].
      destruct (Hne s eq_refl Hk).
    + right. reflexivity.
  - intros o Ho Hne Hlt.
    rewrite !filter_app, !filter_target_invocations. simpl.
    rewrite Ho. simpl (opt_call Unbind (Some o)).
    rewrite filter_cons_True, filter_nil by reflexivity.
    assert (Hb' : b' <> o).
    { destruct Hfresh as [[Hs _]|[Hid _]]; [congruence|].
      intros ->. lia. }
    replace (filter (fun e => target e = Some o) (binding_calls selected v b'))
      with (@nil BindingCall); [reflexivity|].
    unfold binding_calls. destruct selected as [s|].
    + assert (s <> o) by congruence.
      destruct (decide (kind_of v = binding_kind s));
        repeat (rewrite filter_cons_False by (simpl; congruence));
        reflexivity.
    + rewrite filter_cons_False by (simpl; congruence). reflexivity.
Qed.

(** An instance of C3: the condition flips back to [false]; the sub-binding
    of the true branch is unbound and nothing else is called on it. *)
Lemma condition_branch_isolation_witness :
  filter (fun e => target e = Some Examples.binding1)
    (since (snd Examples.condition_both)
       (snd (ConditionBinding.bind (Examples.condition_with (Val false))
               (snd Examples.condition_both))))
  = [Unbind Examples.binding1].
Proof.
  destruct (condition_branch_isolation
              (Examples.condition_with (Val false))
              (snd Examples.condition_both))
    as [(b' & _ & _ & _ & _ & H) _].
  apply (H Examples.binding1).
  - reflexivity.
  - discriminate.
  - vm_compute. lia.
Defined.

(** The claim of C3 that a sub-binding is disconnected only by the
    [disconnect] of the whole binding fails: with the true branch bound and a
    sub-binding kept for the false branch, [unbind] disconnects the
    latter. *)
Lemma condition_unbind_disconnects_other_branch :
  let cb := fst Examples.condition_both in
  let h := snd Examples.condition_both in
  ConditionBinding._trueBinding cb = Some Examples.binding1
  /\ ConditionBinding._falseBinding cb = Some Examples.binding0
  /\ since h (ConditionBinding.unbind cb h)
     = [Unbind Examples.binding1; Disconnect Examples.binding0].
Proof. vm_compute. repeat split. Qed.

(** C10.  With a function as the condition, [unbind] unbinds the sub-binding
    of the true branch and disconnects the one of the false branch, and makes
    no other call: the function is not invoked and what it would return
    plays no part.  [bind] on the same binding starts by invoking the
    function and selects the branch by what it returns. *)
Theorem condition_unbind_function_condition
  (cb : ConditionBinding.t) (fid : nat) (body : Heap -> bool) (h : Heap) :
  condition (ConditionBinding._directive cb) = Fun fid body ->
  since h (ConditionBinding.unbind cb h)
  = opt_call Unbind (ConditionBinding._trueBinding cb)
      ++ opt_call Disconnect (ConditionBinding._falseBinding cb)
  /\ (forall f : nat, Invoke f ∉ since h (ConditionBinding.unbind cb h))
  /\ exists (b' : Binding) (l : list BindingCall),
       since h (snd (ConditionBinding.bind cb h)) = Invoke fid :: l
       /\ (if body h
           then ConditionBinding._trueBinding
                  (fst (ConditionBinding.bind cb h))
           else ConditionBinding._falseBinding
                  (fst (ConditionBinding.bind cb h))) = Some b'
       /\ (if body h
           then ConditionBinding._falseBinding
                  (fst (ConditionBinding.bind cb h))
                = ConditionBinding._falseBinding cb
           else ConditionBinding._trueBinding
                  (fst (ConditionBinding.bind cb h))
                = ConditionBinding._trueBinding cb).
Proof.
  intros Hc.
  assert (Hu := condition_unbind_calls cb h). rewrite Hc in Hu. simpl in Hu.
  split; [exact Hu|]. split.
  - intros f. rewrite Hu.
    destruct (ConditionBinding._trueBinding cb);
      destruct (ConditionBinding._falseBinding cb); simpl;
      intros Hin; repeat (apply elem_of_cons in Hin as [Hin|Hin];
                          [discriminate Hin|]);
      inversion Hin.
  - destruct (condition_bind_calls cb h) as (b' & Hsel & Hoth & _ & Hcalls).
    rewrite Hc in Hsel, Hoth, Hcalls. simpl in Hsel, Hoth, Hcalls.
    exists b'. eexists. split; [exact Hcalls|].
    split; [exact Hsel|].
    destruct (body h); exact Hoth.
Qed.

(** An instance of C10: a predicate that answers [false] on a binding with
    both sub-bindings. *)
Lemma condition_unbind_function_condition_witness :
  since (snd Examples.condition_both)
    (ConditionBinding.unbind
       (Examples.condition_with (Fun 7 (fun _ => false)))
       (snd Examples.condition_both))
  = [Unbind Examples.binding1; Disconnect Examples.binding0].
Proof.
  exact (proj1 (condition_unbind_function_condition
                  (Examples.condition_with (Fun 7 (fun _ => false)))
                  7%nat (fun _ => false) (snd Examples.condition_both)
                  eq_refl)).
Defined.

End ConditionFacts.

(** ** UnsafeSVG *)

Section UnsafeSVGFacts.

(** C7.  On a part that is not a child part the directive throws, whatever
    the content; no value is written and nothing is enqueued, since the
    exception is all that comes back. *)
Theorem unsafeSVG_rejects_other_parts
  (content : string) (part : Part) (log : list UpdaterCall) :
  part_kind part <> ChildPartKind ->
  UnsafeSVG.directiveSymbol (UnsafeSVG.unsafeSVG content) part log
  = Throw UnsafeSVG.must_be_child.
Proof.
  intros Hk. unfold UnsafeSVG.directiveSymbol.
  rewrite bool_decide_eq_false_2 by exact Hk. reflexivity.
Qed.

(** An instance of C7: an attribute part. *)
Lemma unsafeSVG_rejects_other_parts_witness :
  UnsafeSVG.directiveSymbol (UnsafeSVG.unsafeSVG Examples.circle)
    Examples.attribute_part []
  = Throw UnsafeSVG.must_be_child.
Proof.
  apply unsafeSVG_rejects_other_parts. discriminate.
Defined.

(** The directive writes an instance of [UnsafeSVG] into a child part, never
    an [UnsafeSVGChild]. *)
Lemma unsafeSVG_writes_directive
  (content : string) (part part' : Part) (log log' : list UpdaterCall) :
  UnsafeSVG.directiveSymbol (UnsafeSVG.unsafeSVG content) part log
  = Ok (part', log') ->
  (part' = part /\ log' = log
   /\ part_value part = UnsafeSVGChildValue content)
  \/ (part_value part' = UnsafeSVGValue content
      /\ log' = log ++ [SetValue (part_id part) (UnsafeSVGValue content);
                        EnqueueMutationEffect (part_id part)]).
Proof.
  unfold UnsafeSVG.directiveSymbol.
  destruct (negb _); [discriminate|].
  destruct (UnsafeSVG.same_content _ _) eqn:E; intros [= <- <-].
  - left. split; [reflexivity|]. split; [reflexivity|].
    unfold UnsafeSVG.same_content in E.
    destruct (part_value part); try discriminate.
    apply bool_decide_eq_true in E. simpl in E. congruence.
  - right. simpl. rewrite <- app_assoc. auto.
Qed.

(** On a child part that holds what the directive wrote, the same content
    is written and enqueued again. *)
Lemma unsafeSVG_repeats (content : string) (part : Part)
  (log : list UpdaterCall) :
  part_kind part = ChildPartKind ->
  part_value part = UnsafeSVGValue content ->
  UnsafeSVG.directiveSymbol (UnsafeSVG.unsafeSVG content) part log
  = Ok (part,
        log ++ [SetValue (part_id part) (UnsafeSVGValue content);
                EnqueueMutationEffect (part_id part)]).
Proof.
  intros Hk Hv. unfold UnsafeSVG.directiveSymbol.
  rewrite bool_decide_eq_true_2 by exact Hk. rewrite Hv. simpl.
  rewrite <- app_assoc. destruct part; simpl in *. subst. reflexivity.
Qed.

(** C8.  The directive is applied to a child part and then, with the same
    content, to the part it left.  The part holds an [UnsafeSVG], for which
    the test [part.value instanceof UnsafeSVGChild] fails, and the second
    application sets the value and enqueues a mutation effect as the first
    did. *)
Theorem unsafeSVG_same_content_mutates_again :
  exists (part1 : Part) (log1 : list UpdaterCall),
    UnsafeSVG.directiveSymbol (UnsafeSVG.unsafeSVG Examples.circle)
      Examples.child_part [] = Ok (part1, log1)
    /\ part_value part1 = UnsafeSVGValue Examples.circle
    /\ log1 = [SetValue 0 (UnsafeSVGValue Examples.circle);
               EnqueueMutationEffect 0]
    /\ UnsafeSVG.directiveSymbol (UnsafeSVG.unsafeSVG Examples.circle)
         part1 log1
       = Ok (part1,
             log1 ++ [SetValue 0 (UnsafeSVGValue Examples.circle);
                      EnqueueMutationEffect 0]).
Proof.
  eexists _, _. split; [vm_compute; reflexivity|].
  repeat split.
Qed.

End UnsafeSVGFacts.

(** ** Scopes *)

Section ScopeFacts.

Context (realm : Realm)
        (parse parseHTML parseSVG : list string -> string -> option nat).

(** *** Variables *)



(** On a record that inherits from [Object.prototype] an assignment defines
    or updates the own property, for every name but [__proto__]. *)
Lemma assign_plain (record : Varibales) (key : PropertyKey) (value : Value) :
  prototype record = ObjectPrototype ->
  key <> proto_key ->
  assign realm record key value = Ok (define record key value).
Proof.
  intros Hp Hk. unfold assign. rewrite Hp.
  destruct (own record !! key); [reflexivity|].
  destruct (decide (key = proto_key)); [contradiction|reflexivity].
Qed.

Lemma setVariable_new (key : PropertyKey) (value : Value) (renderable : nat)
  (s : ScopeState) :
  without_variables renderable s ->
  setVariable realm key value renderable s
  = Ok (with_variables renderable (literal {[key := value]}) s).
Proof. unfold without_variables, setVariable. intros ->. reflexivity. Qed.

Lemma setVariable_plain (key : PropertyKey) (value : Value) (renderable : nat)
  (s : ScopeState) (variables : Varibales) :
  _variableScope s !! renderable = Some variables ->
  prototype variables = ObjectPrototype ->
  key <> proto_key ->
  setVariable realm key value renderable s
  = Ok (with_variables renderable (define variables key value) s).
Proof.
  intros Hr Hp Hk. unfold setVariable. rewrite Hr.
  rewrite (assign_plain _ _ _ Hp Hk). reflexivity.
Qed.


Lemma getVariable_other_renderable (key : PropertyKey)
  (renderable renderable' : nat) (variables : Varibales) (s : ScopeState) :
  renderable' <> renderable ->
  getVariable realm key renderable' (with_variables renderable variables s)
  = getVariable realm key renderable' s.
Proof.
  intros Hr. unfold getVariable, with_variables. simpl.
  rewrite lookup_insert_ne by congruence. reflexivity.
Qed.



Lemma setVariable_fields (key : PropertyKey) (value : Value)
  (renderable : nat) (s s' : ScopeState) :
  setVariable realm key value renderable s = Ok s' ->
  (forall renderable' : nat,
     renderable' <> renderable ->
     _variableScope s' !! renderable' = _variableScope s !! renderable')
  /\ _globalVariables s' = _globalVariables s
  /\ _templateCaches s' = _templateCaches s
  /\ _marker s' = _marker s.
Proof.
  unfold setVariable.
  destruct (_variableScope s !! renderable) as [variables|].
  - destruct (assign realm variables key value) as [variables'|e];
      [|discriminate].
    simpl. intros [= <-]. simpl. split; [|auto].
    intros renderable' Hr. rewrite lookup_insert_ne by congruence.
    reflexivity.
  - intros [= <-]. simpl. split; [|auto].
    intros renderable' Hr. rewrite lookup_insert_ne by congruence.
    reflexivity.
Qed.






(** *** Template caches *)

Lemma create_with_hit (f : list string -> string -> option nat)
  (strings : TemplateStringsArray) (s : ScopeState) (p : Parser)
  (t : Template) :
  _templateCaches s !! tsa_id strings = Some t ->
  create_with f strings s p = (Ok t, (s, p)).
Proof. intros H. unfold create_with. rewrite H. reflexivity. Qed.

Lemma create_with_cached (f : list string -> string -> option nat)
  (strings : TemplateStringsArray) (s s1 : ScopeState) (p p1 : Parser)
  (t : Template) :
  create_with f strings s p = (Ok t, (s1, p1)) ->
  _templateCaches s1 !! tsa_id strings = Some t.
Proof.
  unfold create_with.
  destruct (_templateCaches s !! tsa_id strings) as [t0|] eqn:E.
  - intros [= <- <- <-]. exact E.
  - unfold parse_with. destruct (f _ _); intros [= <- <- <-]. simpl.
    apply lookup_insert_eq.
Qed.

(** A returned call of the same or another method finds the template. *)
Lemma create_with_twice (f g : list string -> string -> option nat)
  (strings : TemplateStringsArray) (s s1 : ScopeState) (p p1 : Parser)
  (t : Template) :
  create_with f strings s p = (Ok t, (s1, p1)) ->
  create_with g strings s1 p1 = (Ok t, (s1, p1)).
Proof. intros H. apply create_with_hit. exact (create_with_cached _ _ _ _ _ _ _ H). Qed.

Lemma create_with_parsed_once (f : list string -> string -> option nat)
  (strings : TemplateStringsArray) (s : ScopeState) (p : Parser) :
  parsed_once s p ->
  let r := create_with f strings s p in
  NoDup (parsed (snd (snd r)))
  /\ (returned (fst r) = true -> parsed_once (fst (snd r)) (snd (snd r))).
Proof.
  intros [Hnd Hin]. unfold create_with.
  destruct (_templateCaches s !! tsa_id strings) as [t0|] eqn:E; simpl.
  - split; [exact Hnd|]. intros _. split; assumption.
  - assert (Hfresh : tsa_id strings ∉ parsed p).
    { intros Hi. destruct (Hin _ Hi) as [t Ht]. congruence. }
    assert (Hnd' : NoDup (parsed p ++ [tsa_id strings])).
    { apply NoDup_app. split; [exact Hnd|]. split; [|apply NoDup_singleton].
      intros i Hi Hi'. apply list_elem_of_singleton in Hi'. subst i.
      exact (Hfresh Hi). }
    unfold parse_with. destruct (f _ _); simpl.
    + split; [exact Hnd'|]. intros _. split; [exact Hnd'|].
      intros i Hi. simpl. apply elem_of_app in Hi as [Hi|Hi].
      * destruct (decide (tsa_id strings = i)) as [->|Hne].
        -- rewrite lookup_insert_eq. eauto.
        -- rewrite lookup_insert_ne by exact Hne. auto.
      * apply list_elem_of_singleton in Hi. subst i.
        rewrite lookup_insert_eq. eauto.
    + split; [exact Hnd'|]. discriminate.
Qed.

Lemma step_parsed_once (c : ScopeCall) (s : ScopeState) (p : Parser) :
  parsed_once s p ->
  let r := step realm parse parseHTML parseSVG c s p in
  NoDup (parsed (snd (snd r)))
  /\ (fst r = true -> parsed_once (fst (snd r)) (snd (snd r))).
Proof.
  intros Hinv.
  destruct c as [strings|tokens|tokens|key value renderable]; simpl.
  - pose proof (create_with_parsed_once parse strings s p Hinv) as H.
    unfold createTemplate. destruct (create_with _ _ _ _) as [r sp]. exact H.
  - pose proof (create_with_parsed_once parseHTML tokens s p Hinv) as H.
    unfold createHTMLTemplate. destruct (create_with _ _ _ _) as [r sp].
    exact H.
  - pose proof (create_with_parsed_once parseSVG tokens s p Hinv) as H.
    unfold createSVGTemplate. destruct (create_with _ _ _ _) as [r sp].
    exact H.
  - destruct Hinv as [Hnd Hin].
    destruct (setVariable realm key value renderable s) as [s1|e] eqn:E;
      simpl; [|split; [exact Hnd|discriminate]].
    split; [exact Hnd|]. intros _. split; [exact Hnd|]. simpl.
    rewrite (proj1 (proj2 (proj2 (setVariable_fields _ _ _ _ _ E)))).
    exact Hin.
Qed.

Lemma run_parsed_NoDup (cs : list ScopeCall) (s : ScopeState) (p : Parser) :
  parsed_once s p ->
  NoDup (parsed (snd (run realm parse parseHTML parseSVG cs s p))).
Proof.
  revert s p. induction cs as [|c cs IH]; intros s p Hinv.
  - exact (proj1 Hinv).
  - simpl. pose proof (step_parsed_once c s p Hinv) as [Hnd Hok].
    destruct (step realm parse parseHTML parseSVG c s p) as [[|] [s1 p1]];
      simpl in *.
    + apply IH. apply Hok. reflexivity.
    + exact Hnd.
Qed.

Lemma filter_eq_absent (i : nat) (l : list nat) :
  i ∉ l -> filter (fun j => j = i) l = [].
Proof.
  induction l as [|j l IH]; intros Hi; [reflexivity|].
  apply not_elem_of_cons in Hi as [Hne Hi].
  rewrite filter_cons_False by congruence. exact (IH Hi).
Qed.

Lemma NoDup_count_le_1 (i : nat) (l : list nat) :
  NoDup l -> (length (filter (fun j => j = i) l) <= 1)%nat.
Proof.
  induction 1 as [|j l Hj Hnd IH]; [simpl; lia|].
  destruct (decide (j = i)) as [->|Hne].
  - rewrite filter_cons_True by reflexivity.
    rewrite (filter_eq_absent i l Hj). simpl. lia.
  - rewrite filter_cons_False by exact Hne. exact IH.
Qed.

(** Once an array has a template in the cache, a template method called
    with whatever array keeps that entry and does not invoke the parser on
    the cached array. *)
Lemma create_with_keeps_cached (f : list string -> string -> option nat)
  (strings strings' : TemplateStringsArray) (s : ScopeState) (p : Parser) :
  is_Some (_templateCaches s !! tsa_id strings) ->
  _templateCaches (fst (snd (create_with f strings' s p))) !! tsa_id strings
  = _templateCaches s !! tsa_id strings
  /\ parse_count strings (snd (snd (create_with f strings' s p)))
     = parse_count strings p.
Proof.
  intros Hc. unfold create_with.
  destruct (_templateCaches s !! tsa_id strings') as [t0|] eqn:E;
    [split; reflexivity|].
  assert (Hne : tsa_id strings' <> tsa_id strings).
  { intros Heq. rewrite Heq in E. rewrite E in Hc. destruct Hc as [x Hx].
    discriminate Hx. }
  unfold parse_with, parse_count.
  destruct (f _ _); simpl.
  - split; [rewrite lookup_insert_ne by exact Hne; reflexivity|].
    rewrite filter_app, filter_cons_False, filter_nil by exact Hne.
    rewrite app_nil_r. reflexivity.
  - split; [reflexivity|].
    rewrite filter_app, filter_cons_False, filter_nil by exact Hne.
    rewrite app_nil_r. reflexivity.
Qed.

Lemma step_keeps_cached (strings : TemplateStringsArray) (c : ScopeCall)
  (s : ScopeState) (p : Parser) :
  is_Some (_templateCaches s !! tsa_id strings) ->
  _templateCaches (fst (snd (step realm parse parseHTML parseSVG c s p)))
    !! tsa_id strings
  = _templateCaches s !! tsa_id strings
  /\ parse_count strings (snd (snd (step realm parse parseHTML parseSVG c s p)))
     = parse_count strings p.
Proof.
  intros Hc.
  destruct c as [strings'|tokens|tokens|key value renderable]; simpl.
  - pose proof (create_with_keeps_cached parse strings strings' s p Hc) as H.
    unfold createTemplate. destruct (create_with _ _ _ _) as [r sp]. exact H.
  - pose proof (create_with_keeps_cached parseHTML strings tokens s p Hc) as H.
    unfold createHTMLTemplate. destruct (create_with _ _ _ _) as [r sp].
    exact H.
  - pose proof (create_with_keeps_cached parseSVG strings tokens s p Hc) as H.
    unfold createSVGTemplate. destruct (create_with _ _ _ _) as [r sp].
    exact H.
  - destruct (setVariable realm key value renderable s) as [s1|e] eqn:E;
      simpl; [|split; reflexivity].
    rewrite (proj1 (proj2 (proj2 (setVariable_fields _ _ _ _ _ E)))).
    split; reflexivity.
Qed.

Lemma run_caught_keeps_cached (strings : TemplateStringsArray)
  (cs : list ScopeCall) (s : ScopeState) (p : Parser) :
  is_Some (_templateCaches s !! tsa_id strings) ->
  _templateCaches (fst (run_caught realm parse parseHTML parseSVG cs s p))
    !! tsa_id strings
  = _templateCaches s !! tsa_id strings
  /\ parse_count strings (snd (run_caught realm parse parseHTML parseSVG cs s p))
     = parse_count strings p.
Proof.
  revert s p. induction cs as [|c cs IH]; intros s p Hc;
    [split; reflexivity|].
  simpl. pose proof (step_keeps_cached strings c s p Hc) as [H1 H2].
  destruct (step realm parse parseHTML parseSVG c s p) as [ok [s1 p1]].
  simpl in H1, H2.
  assert (Hc1 : is_Some (_templateCaches s1 !! tsa_id strings))
    by (rewrite H1; exact Hc).
  destruct (IH s1 p1 Hc1) as [IH1 IH2].
  split; congruence.
Qed.

(** C4.  A template method that returned a template for an array returns
    the same template object for the same array from then on, without
    calling the parser and without changing the scope.  Once an array has
    its template, no later call invokes the parser on that array, whatever
    is called and whichever calls throw; so in a sequence of calls on a new
    scope that all return the parser is invoked at most once on each
    array. *)
Theorem template_cache_idempotent (strings : TemplateStringsArray) :
  (forall (s s1 : ScopeState) (p p1 : Parser) (t : Template),
     createTemplate parse strings s p = (Ok t, (s1, p1)) ->
     createTemplate parse strings s1 p1 = (Ok t, (s1, p1)))
  /\ (forall (s s1 : ScopeState) (p p1 : Parser) (t : Template),
       createHTMLTemplate parseHTML strings s p = (Ok t, (s1, p1)) ->
       createHTMLTemplate parseHTML strings s1 p1 = (Ok t, (s1, p1)))
  /\ (forall (s s1 : ScopeState) (p p1 : Parser) (t : Template),
       createSVGTemplate parseSVG strings s p = (Ok t, (s1, p1)) ->
       createSVGTemplate parseSVG strings s1 p1 = (Ok t, (s1, p1)))
  /\ (forall (f : list string -> string -> option nat)
             (s s1 : ScopeState) (p p1 : Parser) (t : Template)
             (cs : list ScopeCall),
        create_with f strings s p = (Ok t, (s1, p1)) ->
        _templateCaches
          (fst (run_caught realm parse parseHTML parseSVG cs s1 p1))
          !! tsa_id strings = Some t
        /\ parse_count strings
             (snd (run_caught realm parse parseHTML parseSVG cs s1 p1))
           = parse_count strings p1)
  /\ (forall (globalVariables : Varibales) (marker : string)
             (cs : list ScopeCall),
        (parse_count strings
           (snd (run realm parse parseHTML parseSVG cs
                   (new_scope globalVariables marker) new_parser))
         <= 1)%nat).
Proof.
  split; [|split; [|split; [|split]]].
  - intros s s1 p p1 t. apply create_with_twice.
  - intros s s1 p p1 t. apply create_with_twice.
  - intros s s1 p p1 t. apply create_with_twice.
  - intros f s s1 p p1 t cs H.
    pose proof (create_with_cached _ _ _ _ _ _ _ H) as Hc.
    destruct (run_caught_keeps_cached strings cs s1 p1) as [H1 H2].
    { rewrite Hc. eauto. }
    split; [rewrite H1; exact Hc|exact H2].
  - intros globalVariables marker cs. unfold parse_count.
    apply NoDup_count_le_1, run_parsed_NoDup.
    split; [apply NoDup_nil_2|]. intros i Hi. inversion Hi.
Qed.

End ScopeFacts.



(** The value that was set is not returned either for [__proto__] set to a number for a renderable that
    has a variable: the setter that the record inherits ignores the number,
    and the getter returns [Object.prototype]. *)
Example proto_number_ignored :
  (s1 ← setVariable Examples.realm (StringKey "a") (VNum 1) 1
          Examples.themed_scope;
   s2 ← setVariable Examples.realm proto_key (VNum 5) 1 s1;
   Ok (getVariable Examples.realm proto_key 1 s2))
  = Ok Examples.Object_prototype.
Proof. vm_compute. reflexivity. Qed.

(** As the first variable of a renderable, [__proto__] is an own property of
    the new record. *)
Example first_proto_is_own :
  (s1 ← setVariable Examples.realm proto_key (VNum 5) 1
          Examples.themed_scope;
   Ok (getVariable Examples.realm proto_key 1 s1))
  = Ok (VNum 5).
Proof. vm_compute. reflexivity. Qed.

(** [__proto__] set to an object of the caller for a renderable that has a
    variable: the record inherits the properties of the object from then
    on. *)
Example proto_object_inherited :
  (s1 ← setVariable Examples.realm (StringKey "a") (VNum 1) 1
          Examples.themed_scope;
   s2 ← setVariable Examples.realm proto_key Examples.x_is_9 1 s1;
   Ok (getVariable Examples.realm (StringKey "x") 1 s1,
       getVariable Examples.realm (StringKey "x") 1 s2))
  = Ok (VUndefined, VNum 9).
Proof. vm_compute. reflexivity. Qed.

(** A name that plain objects inherit, never set for the renderable: the
    global value is returned until the renderable has a record, the
    inherited one from then on. *)
Example inherited_name_before_global :
  let s := new_scope (literal {[StringKey "constructor" := VNum 7]})
             "{{marker}}" in
  (s1 ← setVariable Examples.realm (StringKey "a") (VNum 1) 1 s;
   Ok (getVariable Examples.realm (StringKey "constructor") 1 s,
       getVariable Examples.realm (StringKey "constructor") 1 s1))
  = Ok (VNum 7, VObj 1001).
Proof. vm_compute. reflexivity. Qed.

(** An instance of C4: the second call for the same array. *)
Lemma template_cache_idempotent_witness :
  let first := createTemplate Examples.count_holes Examples.strings_a
                 Examples.themed_scope new_parser in
  createTemplate Examples.count_holes Examples.strings_a
    (fst (snd first)) (snd (snd first))
  = (Ok {| tpl_id := 0; tpl_parts := 1 |}, snd first).
Proof.
  exact (proj1 (template_cache_idempotent Examples.realm Examples.count_holes
                  Examples.count_holes Examples.count_holes
                  Examples.strings_a)
           Examples.themed_scope _ new_parser _ _ eq_refl).
Defined.

(** The claim of C4 that the parser is invoked at most once on an array
    fails for an array that the parser rejects: the call throws, nothing is
    cached, and the caller that catches the exception and calls again has the
    array parsed a second time. *)
Lemma rejected_array_parsed_twice :
  parse_count Examples.strings_a
    (snd (run_caught Examples.realm ScopeExamples.reject_all
            ScopeExamples.reject_all ScopeExamples.reject_all
            [CreateTemplate Examples.strings_a;
             CreateTemplate Examples.strings_a]
            Examples.themed_scope new_parser))
  = 2%nat.
Proof. vm_compute. reflexivity. Qed.

(** * Further properties *)

(** ** Block lifecycle *)

Section BlockLifecycleFacts.

Import BlockFlag.

Lemma flag_values (f : Z) :
  0 <= f < 8 ->
  f = 0 \/ f = 1 \/ f = 2 \/ f = 3 \/ f = 4 \/ f = 5 \/ f = 6 \/ f = 7.
Proof. lia. Qed.

Ltac flag_cases H :=
  destruct (flag_values _ H) as [->|[->|[->|[->|[->|[->|[->| ->]]]]]]];
  (vm_compute; split; [discriminate | reflexivity]).

Lemma bit_or_flags (f : Z) :
  0 <= f < 8 ->
  0 <= JS.bit_or f MOUNTED < 8
  /\ 0 <= JS.bit_or f DIRTY < 8
  /\ 0 <= JS.bit_or f (JS.bit_or DIRTY UPDATING) < 8.
Proof. intros H. split; [|split]; flag_cases H. Qed.

Lemma bit_xor_flags (f : Z) :
  0 <= f < 8 ->
  0 <= JS.bit_xor f MOUNTED < 8
  /\ 0 <= JS.bit_xor f (JS.bit_or DIRTY UPDATING) < 8.
Proof. intros H. split; flag_cases H. Qed.

Lemma new_well_formed (id : nat) (type : Value -> TemplateResult)
  (props : Value) :
  BlockLifecycle.well_formed (Block.new id type props).
Proof.
  split; [vm_compute; split; [discriminate | reflexivity]|].
  simpl. intros [[x Hx]|[x Hx]]; discriminate.
Qed.

Lemma apply_well_formed (op : BlockLifecycle.Op) (b b' : Block) (w w' : Env) :
  BlockLifecycle.well_formed b ->
  BlockLifecycle.apply op b w = Ok (b', w') ->
  BlockLifecycle.well_formed b'.
Proof.
  intros [Hf Ht] H. destruct op as [p| | |part|hooks|part]; simpl in H.
  - injection H as <- <-. unfold Block.setProps.
    destruct (negb _); [|split; assumption].
    split; [apply bit_or_flags; exact Hf | exact Ht].
  - unfold Block.forceUpdate in H. destruct (_ || _); injection H as <- <-.
    + split; assumption.
    + split; [apply bit_or_flags; exact Hf | exact Ht].
  - destruct (render_inversion _ _ _ _ H) as (b1 & -> & _).
    split; [apply bit_xor_flags; exact Hf|].
    intros _. simpl. eauto.
  - injection H as <- <-. split; [apply bit_or_flags; exact Hf|].
    simpl. intros [Hp|Hp]; apply Ht; left; exact Hp.
  - injection H as <- <-. split; [apply bit_xor_flags; exact Hf | exact Ht].
  - injection H as <- <-. unfold BlockLifecycle.update.
    destruct (negb _); [|split; assumption].
    split; [exact Hf|]. simpl. intros [Hp|Hp]; apply Ht; left; exact Hp.
Qed.

Lemma run_well_formed (ops : list BlockLifecycle.Op) (b b' : Block)
  (w w' : Env) :
  BlockLifecycle.well_formed b ->
  BlockLifecycle.run ops b w = Ok (b', w') ->
  BlockLifecycle.well_formed b'.
Proof.
  revert b w. induction ops as [|op ops IH]; intros b w Hwf H.
  - injection H as <- <-. exact Hwf.
  - simpl in H.
    destruct (BlockLifecycle.apply op b w) as [[b1 w1]|] eqn:E;
      simpl in H; [|discriminate].
    exact (IH b1 w1 (apply_well_formed _ _ _ _ _ Hwf E) H).
Qed.

(** On a block with a memoized template, or with no mount point at all,
    [render] never reaches [WeakMap.set] with [null] as the key. *)
Lemma render_key_not_null (b : Block) (w : Env) :
  BlockLifecycle.well_formed b ->
  Block.render b w <> Throw "invalid value used as weak map key".
Proof.
  intros [_ Ht]. unfold Block.render.
  set (r := _type b (_pendingProps b)).
  destruct (_memoizedMountPoint b) as [memoized|] eqn:Emp; simpl.
  - destruct (Ht (or_intror (ex_intro _ memoized eq_refl))) as [t Et].
    rewrite Et.
    destruct (negb (Block.same_template (Some t) (template r))).
    + destruct (_cachedMountPoints b) as [cache|]; simpl.
      * destruct (cache !! tpl_id (template r)); simpl; [discriminate|].
        unfold Block.template_mount. destruct (decide _); simpl; discriminate.
      * unfold Block.template_mount. destruct (decide _); simpl; discriminate.
    + unfold Block.template_patch. destruct (decide _); simpl; discriminate.
  - unfold Block.template_mount. destruct (decide _); simpl; discriminate.
Qed.

(** X1.  Whatever sequence of [setProps], [forceUpdate], [render], [mount],
    [unmount] and [update] a new block has gone through, its flags are made
    of the three flag bits and, as the comment in [render] says, a block with
    a mount point has a memoized template; so [render] never passes [null]
    to [WeakMap.set]. *)
Theorem block_invariant (ops : list BlockLifecycle.Op) (id : nat)
  (type : Value -> TemplateResult) (props : Value) (b : Block) (w w' : Env) :
  BlockLifecycle.run ops (Block.new id type props) w = Ok (b, w') ->
  0 <= _flags b < 8
  /\ (is_Some (_pendingMountPoint b) \/ is_Some (_memoizedMountPoint b) ->
      is_Some (_memoizedTemplate b))
  /\ forall w1 : Env,
       Block.render b w1 <> Throw "invalid value used as weak map key".
Proof.
  intros H.
  assert (Hwf := run_well_formed _ _ _ _ _ (new_well_formed id type props) H).
  split; [exact (proj1 Hwf)|]. split; [exact (proj2 Hwf)|].
  intros w1. apply render_key_not_null. exact Hwf.
Qed.

(** X2.  The first render of a new block returns with [UPDATING] set, and
    [mount] keeps it: from then on [forceUpdate] changes nothing and
    requests nothing, however often it is called. *)
Theorem forceUpdate_ignored_after_first_render
  (id : nat) (type : Value -> TemplateResult) (props : Value)
  (b1 : Block) (w w1 : Env) (part n : nat) :
  Block.render (Block.new id type props) w = Ok (b1, w1) ->
  Block.has_flag UPDATING (fst (Block.mount part b1 w1)) = true
  /\ Block.has_flag MOUNTED (fst (Block.mount part b1 w1)) = true
  /\ Block.forceUpdate_times n
       (fst (Block.mount part b1 w1)) (snd (Block.mount part b1 w1))
     = Block.mount part b1 w1.
Proof.
  intros H.
  assert (Hu : Block.has_flag UPDATING b1 = true).
  { apply (render_sets_UPDATING_when_clear _ _ _ _ H). reflexivity. }
  assert (Hm : Block.has_flag UPDATING (fst (Block.mount part b1 w1)) = true
               /\ Block.has_flag MOUNTED (fst (Block.mount part b1 w1))
                  = true).
  { rewrite has_UPDATING in Hu. rewrite has_UPDATING, has_MOUNTED.
    unfold Block.mount, Block.with_memoizedMountPoint, Block.with_flags.
    cbn [fst _flags]. rewrite !bit_or_testbit by lia. rewrite Hu.
    split; [reflexivity|]. change (Z.testbit MOUNTED 0) with true.
    apply orb_true_r. }
  split; [exact (proj1 Hm)|]. split; [exact (proj2 Hm)|].
  rewrite forceUpdate_times_noop by exact (proj1 Hm).
  destruct (Block.mount part b1 w1). reflexivity.
Qed.

End BlockLifecycleFacts.

Section BlockRenderFacts.

Import BlockFlag.

(** X3.  [setProps] is lazy: the props the block shows stay the committed
    ones; a strictly equal value changes nothing at all, any other value,
    and always [NaN], becomes the pending props and marks the block dirty;
    the next render commits the pending props. *)
Theorem setProps_lazy (p : Value) (b : Block) :
  BlockLifecycle.props (Block.setProps p b) = BlockLifecycle.props b
  /\ (JS.strict_equals p (_pendingProps b) = true -> Block.setProps p b = b)
  /\ (JS.strict_equals p (_pendingProps b) = false ->
      _pendingProps (Block.setProps p b) = p
      /\ Block.isDirty (Block.setProps p b) = true)
  /\ Block.isDirty (Block.setProps VNaN b) = true
  /\ forall (w w' : Env) (b' : Block),
       Block.render (Block.setProps p b) w = Ok (b', w') ->
       BlockLifecycle.props b'
       = if JS.strict_equals p (_pendingProps b) then _pendingProps b else p.
Proof.
  assert (Hdirty : forall q,
            JS.strict_equals q (_pendingProps b) = false ->
            _pendingProps (Block.setProps q b) = q
            /\ Block.isDirty (Block.setProps q b) = true).
  { intros q Hq. unfold Block.setProps. rewrite Hq. cbn [negb].
    split; [reflexivity|]. unfold Block.isDirty. rewrite has_DIRTY.
    unfold Block.with_flags, Block.with_pendingProps. cbn [_flags].
    rewrite bit_or_testbit by lia. apply orb_true_r. }
  split; [|split; [|split; [|split]]].
  - unfold Block.setProps. destruct (negb _); reflexivity.
  - intros H. unfold Block.setProps. rewrite H. reflexivity.
  - exact (Hdirty p).
  - apply (Hdirty VNaN). reflexivity.
  - intros w w' b' H. destruct (render_commits _ _ _ _ H) as (Hp & _).
    unfold BlockLifecycle.props. rewrite Hp. unfold Block.setProps.
    destruct (JS.strict_equals p (_pendingProps b)); reflexivity.
Qed.

(** [render] when the render function returns another template than the
    memoized one: the memoized mount point goes to the cache under the
    memoized template. *)
Lemma render_template_changed (b b2 : Block) (w w2 : Env)
  (mp1 : MountPoint) (t1 : Template) :
  _memoizedMountPoint b = Some mp1 ->
  _memoizedTemplate b = Some t1 ->
  tpl_id (template (_type b (_pendingProps b))) <> tpl_id t1 ->
  Block.render b w = Ok (b2, w2) ->
  (exists cache, _cachedMountPoints b2 = Some cache
                 /\ cache !! tpl_id t1 = Some mp1)
  /\ _memoizedMountPoint b2 = Some mp1
  /\ _memoizedTemplate b2 = Some (template (_type b (_pendingProps b)))
  /\ is_Some (_pendingMountPoint b2)
  /\ _type b2 = _type b
  /\ _pendingProps b2 = _pendingProps b.
Proof.
  intros Hmp Ht Hne H. unfold Block.render in H.
  set (r := _type b (_pendingProps b)) in *.
  rewrite Hmp, Ht in H. simpl in H.
  rewrite bool_decide_eq_false_2 in H by congruence. simpl in H.
  destruct (_cachedMountPoints b) as [cache|]; simpl in H.
  - destruct (cache !! tpl_id (template r)) as [mp|]; simpl in H.
    + injection H as <- <-. simpl.
      split; [eexists; split; [reflexivity|apply lookup_insert_eq]|].
      repeat split; eauto.
    + destruct (Block.template_mount (template r) (values r) w)
        as [[mp w1]|]; simpl in H; [|discriminate].
      injection H as <- <-. simpl.
      split; [eexists; split; [reflexivity|apply lookup_insert_eq]|].
      repeat split; eauto.
  - destruct (Block.template_mount (template r) (values r) w)
      as [[mp w1]|]; simpl in H; [|discriminate].
    injection H as <- <-. simpl.
    split; [eexists; split; [reflexivity|apply lookup_insert_eq]|].
    repeat split; eauto.
Qed.

(** [render] when the cache has a mount point for the returned template. *)
Lemma render_cache_hit (b : Block) (w : Env) (m mp : MountPoint)
  (t2 : Template) (cache : gmap nat MountPoint) :
  _memoizedMountPoint b = Some m ->
  _memoizedTemplate b = Some t2 ->
  _cachedMountPoints b = Some cache ->
  tpl_id (template (_type b (_pendingProps b))) <> tpl_id t2 ->
  cache !! tpl_id (template (_type b (_pendingProps b))) = Some mp ->
  exists b4,
    Block.render b w = Ok (b4, w)
    /\ _pendingMountPoint b4 = Some mp
    /\ _memoizedValues b4 = values (_type b (_pendingProps b))
    /\ _memoizedTemplate b4 = Some (template (_type b (_pendingProps b))).
Proof.
  intros Hm Ht Hc Hne Hhit. unfold Block.render.
  rewrite Hm, Ht, Hc. simpl.
  rewrite bool_decide_eq_false_2 by congruence. simpl.
  rewrite Hhit. simpl. eexists. split; [reflexivity|]. simpl. auto.
Qed.

Lemma update_fields (part : nat) (b : Block) :
  let b' := fst (BlockLifecycle.update part b) in
  is_Some (_pendingMountPoint b) ->
  is_Some (_memoizedMountPoint b')
  /\ _memoizedTemplate b' = _memoizedTemplate b
  /\ _cachedMountPoints b' = _cachedMountPoints b
  /\ _type b' = _type b
  /\ _pendingProps b' = _pendingProps b.
Proof.
  intros b' Hp. subst b'. unfold BlockLifecycle.update.
  destruct (negb _) eqn:E; simpl.
  - auto.
  - apply negb_false_iff, bool_decide_eq_true in E.
    destruct Hp as [mp Hp]. rewrite Hp in E.
    destruct (_memoizedMountPoint b); [eauto 6|discriminate].
Qed.

(** X4.  A block that switches from template [t1] to another template and,
    after [update], back to [t1] takes the mount point it had for [t1] out
    of the cache: the render that switches back calls neither [mount] nor
    [patch] and allocates nothing, while it commits the new values. *)
Theorem render_reuses_cached_mount_point
  (b b2 : Block) (w w2 : Env) (mp1 : MountPoint) (t1 : Template)
  (part : nat) (p' : Value) :
  _memoizedMountPoint b = Some mp1 ->
  _memoizedTemplate b = Some t1 ->
  tpl_id (template (_type b (_pendingProps b))) <> tpl_id t1 ->
  Block.render b w = Ok (b2, w2) ->
  JS.strict_equals p' (_pendingProps b) = false ->
  tpl_id (template (_type b p')) = tpl_id t1 ->
  exists b4 : Block,
    Block.render (Block.setProps p' (fst (BlockLifecycle.update part b2))) w2
    = Ok (b4, w2)
    /\ _pendingMountPoint b4 = Some mp1
    /\ _memoizedValues b4 = values (_type b p')
    /\ _memoizedTemplate b4 = Some (template (_type b p')).
Proof.
  intros Hmp Ht Hne H Hp' Hback.
  destruct (render_template_changed _ _ _ _ _ _ Hmp Ht Hne H)
    as ((cache & Hc & Hhit) & Hm2 & Ht2 & Hpend & Hty & Hpp).
  destruct (update_fields part b2 Hpend) as ([m3 Hm3] & Ht3 & Hc3 & Hty3 & Hpp3).
  set (b3 := fst (BlockLifecycle.update part b2)) in *.
  assert (Hset : Block.setProps p' b3
                 = Block.with_flags (JS.bit_or (_flags b3) DIRTY)
                     (Block.with_pendingProps p' b3)).
  { unfold Block.setProps. rewrite Hpp3, Hpp, Hp'. reflexivity. }
  rewrite Hset.
  set (b3' := Block.with_flags _ _).
  assert (Hr : _type b3' (_pendingProps b3') = _type b p').
  { subst b3'. simpl. rewrite Hty3, Hty. reflexivity. }
  destruct (render_cache_hit b3' w2 m3 mp1
              (template (_type b (_pendingProps b))) cache)
    as (b4 & Hb4 & Hpend4 & Hv4 & Ht4).
  - exact Hm3.
  - subst b3'. simpl. rewrite Ht3. exact Ht2.
  - subst b3'. simpl. rewrite Hc3. exact Hc.
  - rewrite Hr, Hback. congruence.
  - rewrite Hr, Hback. exact Hhit.
  - exists b4. rewrite <- Hr. auto.
Qed.

Lemma render_keeps_type (b b' : Block) (w w' : Env) :
  Block.render b w = Ok (b', w') -> _type b' = _type b.
Proof.
  unfold Block.render. intros H.
  destruct (_memoizedMountPoint b) as [memoized|]; simpl in H.
  - destruct (negb _).
    + destruct (_cachedMountPoints b) as [cache|]; simpl in H.
      * destruct (cache !! _); simpl in H.
        -- destruct (_memoizedTemplate b); simpl in H; [|discriminate].
           injection H as <- _. reflexivity.
        -- destruct (Block.template_mount _ _ _) as [[m0 w0]|];
             simpl in H; [|discriminate].
           destruct (_memoizedTemplate b); simpl in H; [|discriminate].
           injection H as <- _. reflexivity.
      * destruct (Block.template_mount _ _ _) as [[m0 w0]|];
          simpl in H; [|discriminate].
        destruct (_memoizedTemplate b); simpl in H; [|discriminate].
        injection H as <- _. reflexivity.
    + destruct (Block.template_patch _ _ _ _ _); simpl in H; [|discriminate].
      injection H as <- _. reflexivity.
  - destruct (Block.template_mount _ _ _) as [[m0 w0]|];
      simpl in H; [|discriminate].
    injection H as <- _. reflexivity.
Qed.

(** [render] when the render function returns the memoized template. *)
Lemma render_same_template (c b3 : Block) (w w3 : Env) (mp : MountPoint)
  (t : Template) :
  _memoizedMountPoint c = Some mp ->
  _memoizedTemplate c = Some t ->
  tpl_id t = tpl_id (template (_type c (_pendingProps c))) ->
  Block.render c w = Ok (b3, w3) ->
  w3 = emit (TemplatePatch (tpl_id (template (_type c (_pendingProps c))))
               (mp_id mp) (_memoizedValues c)
               (values (_type c (_pendingProps c)))) w
  /\ _memoizedMountPoint b3 = Some mp
  /\ _pendingMountPoint b3 = _pendingMountPoint c
  /\ _cachedMountPoints b3 = _cachedMountPoints c.
Proof.
  intros Hm Ht Hsame H. unfold Block.render in H.
  rewrite Hm, Ht in H. simpl in H.
  rewrite bool_decide_eq_true_2 in H by exact Hsame. simpl in H.
  unfold Block.template_patch in H.
  destruct (decide _); simpl in H; [|discriminate].
  injection H as <- <-. simpl. auto.
Qed.

(** X5.  After a render and [mount], a render that returns the memoized
    template makes one call, [patch] on the parts of the mounted mount point
    with the values of the previous render as the old values; it allocates
    nothing and leaves the mount points and the cache as they were. *)
Theorem rerender_patches_in_place
  (b b1 b3 : Block) (w w1 w3 : Env) (mp : MountPoint) (part : nat)
  (p' : Value) :
  Block.render b w = Ok (b1, w1) ->
  _pendingMountPoint b1 = Some mp ->
  JS.strict_equals p' (_pendingProps b) = false ->
  tpl_id (template (_type b p'))
  = tpl_id (template (_type b (_pendingProps b))) ->
  Block.render
    (Block.setProps p' (fst (Block.mount part b1 w1)))
    (snd (Block.mount part b1 w1)) = Ok (b3, w3) ->
  w3 = emit (TemplatePatch (tpl_id (template (_type b p'))) (mp_id mp)
               (values (_type b (_pendingProps b))) (values (_type b p')))
         (snd (Block.mount part b1 w1))
  /\ _memoizedMountPoint b3 = Some mp
  /\ _pendingMountPoint b3 = Some mp
  /\ _cachedMountPoints b3 = _cachedMountPoints b1.
Proof.
  intros H Hpend Hp' Hsame H3.
  destruct (render_commits _ _ _ _ H) as (_ & Hv & Ht).
  assert (Hty := render_keeps_type _ _ _ _ H).
  assert (Hpp : _pendingProps b1 = _pendingProps b).
  { destruct (render_inversion _ _ _ _ H) as (b0 & -> & Hpp & _). exact Hpp. }
  set (c := Block.setProps p' (fst (Block.mount part b1 w1))) in *.
  assert (Hc : c = Block.with_flags
                     (JS.bit_or (JS.bit_or (_flags b1) MOUNTED) DIRTY)
                     (Block.with_pendingProps p'
                        (fst (Block.mount part b1 w1)))).
  { subst c. unfold Block.setProps. simpl. rewrite Hpp, Hp'. reflexivity. }
  assert (Hcty : _type c (_pendingProps c) = _type b p').
  { rewrite Hc. simpl. rewrite Hty. reflexivity. }
  destruct (render_same_template c b3 (snd (Block.mount part b1 w1)) w3 mp
              (template (_type b (_pendingProps b))))
    as (Hw & Hm3 & Hp3 & Hc3).
  - rewrite Hc. simpl. exact Hpend.
  - rewrite Hc. simpl. exact Ht.
  - rewrite Hcty. symmetry. exact Hsame.
  - exact H3.
  - rewrite Hcty in Hw. split.
    + rewrite Hw. f_equal. f_equal. rewrite Hc. simpl. exact Hv.
    + split; [exact Hm3|]. rewrite Hp3, Hc3, Hc. simpl. auto.
Qed.

(** X6.  [unmount] toggles [MOUNTED] and leaves the other flags: after one
    [unmount] of a mounted block [forceUpdate] does nothing, and after a
    second [unmount] the block counts as mounted again and [forceUpdate]
    requests an update. *)
Theorem unmount_toggles_MOUNTED (hooks hooks' : list Hook) (b : Block)
  (w : Env) :
  let b1 := fst (BlockLifecycle.unmount hooks b) in
  let b2 := fst (BlockLifecycle.unmount hooks' b1) in
  Block.has_flag MOUNTED b1 = negb (Block.has_flag MOUNTED b)
  /\ Block.has_flag DIRTY b1 = Block.has_flag DIRTY b
  /\ Block.has_flag UPDATING b1 = Block.has_flag UPDATING b
  /\ (Block.has_flag MOUNTED b = true -> Block.forceUpdate b1 w = (b1, w))
  /\ (Block.has_flag MOUNTED b = true ->
      Block.has_flag UPDATING b = false ->
      snd (Block.forceUpdate b2 w) = emit (RequestUpdate (block_id b)) w).
Proof.
  intros b1 b2.
  assert (Htoggle : forall hs c,
            Block.has_flag MOUNTED (fst (BlockLifecycle.unmount hs c))
            = negb (Block.has_flag MOUNTED c)
            /\ Block.has_flag DIRTY (fst (BlockLifecycle.unmount hs c))
               = Block.has_flag DIRTY c
            /\ Block.has_flag UPDATING (fst (BlockLifecycle.unmount hs c))
               = Block.has_flag UPDATING c).
  { intros hs c. rewrite !has_MOUNTED, !has_DIRTY, !has_UPDATING.
    unfold BlockLifecycle.unmount, Block.with_flags. cbn [fst _flags].
    rewrite !bit_xor_testbit by lia.
    change (Z.testbit MOUNTED 0) with true.
    change (Z.testbit MOUNTED 1) with false.
    change (Z.testbit MOUNTED 2) with false.
    rewrite xorb_true_r, !xorb_false_r. auto. }
  destruct (Htoggle hooks b) as (Hm1 & Hd1 & Hu1).
  destruct (Htoggle hooks' b1) as (Hm2 & _ & Hu2). fold b1 in Hm1, Hd1, Hu1.
  fold b2 in Hm2, Hu2.
  split; [exact Hm1|]. split; [exact Hd1|]. split; [exact Hu1|]. split.
  - intros Hm. apply forceUpdate_noop. left. rewrite Hm1, Hm. reflexivity.
  - intros Hm Hu. rewrite forceUpdate_acts.
    + reflexivity.
    + rewrite Hm2, Hm1, Hm. reflexivity.
    + rewrite Hu2, Hu1. exact Hu.
Qed.

(** X7.  [update] makes the pending mount point the memoized one: when the
    two are the same object it does nothing, otherwise it disconnects the
    old mount point, if any, before it connects the new one, if any; a
    second [update] finds nothing to do. *)
Theorem update_swaps_mount_point (part : nat) (b : Block) :
  let r := BlockLifecycle.update part b in
  mp_id <$> _memoizedMountPoint (fst r) = mp_id <$> _pendingMountPoint b
  /\ _pendingMountPoint (fst r) = _pendingMountPoint b
  /\ (mp_id <$> _pendingMountPoint b = mp_id <$> _memoizedMountPoint b ->
      r = (b, []))
  /\ (mp_id <$> _pendingMountPoint b <> mp_id <$> _memoizedMountPoint b ->
      _memoizedMountPoint (fst r) = _pendingMountPoint b
      /\ snd r
         = match _memoizedMountPoint b with
           | Some mp => [DisconnectMountPoint (mp_id mp)]
           | None => []
           end
           ++ match _pendingMountPoint b with
              | Some mp => [ConnectMountPointTo (mp_id mp) part]
              | None => []
              end)
  /\ BlockLifecycle.update part (fst r) = (fst r, []).
Proof.
  intros r. subst r.
  destruct (decide (mp_id <$> _pendingMountPoint b
                    = mp_id <$> _memoizedMountPoint b)) as [E|E].
  - assert (Hu : BlockLifecycle.update part b = (b, [])).
    { unfold BlockLifecycle.update, BlockLifecycle.same_mount_point.
      rewrite bool_decide_eq_true_2 by exact E. reflexivity. }
    rewrite !Hu. cbn [fst snd].
    split; [symmetry; exact E|]. split; [reflexivity|].
    split; [reflexivity|]. split; [intros Hne; destruct (Hne E)|].
    exact Hu.
  - assert (Hu : BlockLifecycle.update part b
                 = (Block.with_memoizedMountPoint (_pendingMountPoint b) b,
                    match _memoizedMountPoint b with
                    | Some mp => [DisconnectMountPoint (mp_id mp)]
                    | None => []
                    end
                    ++ match _pendingMountPoint b with
                       | Some mp => [ConnectMountPointTo (mp_id mp) part]
                       | None => []
                       end)).
    { unfold BlockLifecycle.update, BlockLifecycle.same_mount_point.
      rewrite bool_decide_eq_false_2 by exact E. reflexivity. }
    rewrite !Hu. cbn [fst snd].
    split; [reflexivity|]. split; [reflexivity|].
    split; [intros E'; destruct (E E')|]. split; [auto|].
    unfold BlockLifecycle.update, BlockLifecycle.same_mount_point.
    cbn [Block.with_memoizedMountPoint _pendingMountPoint
         _memoizedMountPoint].
    rewrite bool_decide_eq_true_2 by reflexivity. reflexivity.
Qed.

(** The example block is what the public methods make of a new block. *)
Lemma shaped_block_reachable :
  BlockLifecycle.run
    [BlockLifecycle.Render; BlockLifecycle.Mount 0;
     BlockLifecycle.SetProps (VStr "x")]
    (Block.new 1 LifecycleExamples.two_shapes (VNum 1)) Examples.env0
  = Ok (LifecycleExamples.shaped_block, LifecycleExamples.shaped_env).
Proof. vm_compute. reflexivity. Qed.

(** An instance of X1. *)
Lemma block_invariant_witness :
  exists (b : Block) (w : Env),
    BlockLifecycle.run LifecycleExamples.ops
      (Block.new 1 LifecycleExamples.two_shapes (VNum 1)) Examples.env0
    = Ok (b, w)
    /\ 0 <= _flags b < 8.
Proof.
  destruct (BlockLifecycle.run LifecycleExamples.ops
              (Block.new 1 LifecycleExamples.two_shapes (VNum 1))
              Examples.env0) as [[b w]|] eqn:E.
  - exists b, w. split; [reflexivity|].
    exact (proj1 (block_invariant _ _ _ _ _ _ _ E)).
  - vm_compute in E. discriminate E.
Defined.

(** An instance of X2: three calls after the first render and mount. *)
Lemma forceUpdate_ignored_after_first_render_witness :
  exists (b1 : Block) (w1 : Env),
    Block.render Examples.fresh_block Examples.env0 = Ok (b1, w1)
    /\ Block.forceUpdate_times 3
         (fst (Block.mount 0 b1 w1)) (snd (Block.mount 0 b1 w1))
       = Block.mount 0 b1 w1.
Proof.
  destruct (Block.render Examples.fresh_block Examples.env0)
    as [[b1 w1]|] eqn:E.
  - exists b1, w1. split; [reflexivity|].
    exact (proj2 (proj2 (forceUpdate_ignored_after_first_render
                           1%nat Examples.show_props (VNum 1) b1
                           Examples.env0 w1 0%nat 3%nat E))).
  - vm_compute in E. discriminate E.
Defined.

(** An instance of X3: the value the block already has, [+0] against
    [-0]. *)
Lemma setProps_lazy_witness :
  Block.setProps VNegZero
    (Block.new 1 Examples.show_props (VNum 0))
  = Block.new 1 Examples.show_props (VNum 0).
Proof.
  exact (proj1 (proj2 (setProps_lazy VNegZero
                         (Block.new 1 Examples.show_props (VNum 0))))
           eq_refl).
Defined.

(** An instance of X4: number, string, number. *)
Lemma render_reuses_cached_mount_point_witness :
  exists (b2 b4 : Block) (w2 : Env),
    Block.render LifecycleExamples.shaped_block LifecycleExamples.shaped_env
    = Ok (b2, w2)
    /\ Block.render
         (Block.setProps (VNum 2) (fst (BlockLifecycle.update 0 b2))) w2
       = Ok (b4, w2)
    /\ _pendingMountPoint b4 = Some LifecycleExamples.mount_point_a.
Proof.
  destruct (Block.render LifecycleExamples.shaped_block
              LifecycleExamples.shaped_env) as [[b2 w2]|] eqn:E.
  - destruct (render_reuses_cached_mount_point
                LifecycleExamples.shaped_block b2
                LifecycleExamples.shaped_env w2
                LifecycleExamples.mount_point_a Examples.template_a
                0%nat (VNum 2) eq_refl eq_refl
                ltac:(simpl; discriminate) E eq_refl eq_refl)
      as (b4 & H1 & H2 & _).
    exists b2, b4, w2. auto.
  - vm_compute in E. discriminate E.
Defined.

(** An instance of X5: the props go from [1] to [2]. *)
Lemma rerender_patches_in_place_witness :
  exists (b1 b3 : Block) (w1 w3 : Env),
    Block.render Examples.fresh_block Examples.env0 = Ok (b1, w1)
    /\ Block.render (Block.setProps (VNum 2) (fst (Block.mount 0 b1 w1)))
         (snd (Block.mount 0 b1 w1)) = Ok (b3, w3)
    /\ w3 = emit (TemplatePatch 10 100 [VNum 1] [VNum 2])
              (snd (Block.mount 0 b1 w1)).
Proof.
  destruct (Block.render Examples.fresh_block Examples.env0)
    as [[b1 w1]|] eqn:E; [|vm_compute in E; discriminate E].
  destruct (Block.render (Block.setProps (VNum 2) (fst (Block.mount 0 b1 w1)))
              (snd (Block.mount 0 b1 w1))) as [[b3 w3]|] eqn:E3.
  - exists b1, b3, w1, w3. split; [reflexivity|]. split; [exact E3|].
    assert (Hp : _pendingMountPoint b1 = Some LifecycleExamples.mount_point_a).
    { vm_compute in E. injection E as <- _. reflexivity. }
    exact (proj1 (rerender_patches_in_place Examples.fresh_block b1 b3
                    Examples.env0 w1 w3 LifecycleExamples.mount_point_a
                    0%nat (VNum 2) E Hp eq_refl eq_refl E3)).
  - vm_compute in E. injection E as <- <-. vm_compute in E3. discriminate E3.
Defined.

(** An instance of X6: a mounted block unmounted twice. *)
Lemma unmount_toggles_MOUNTED_witness :
  snd (Block.forceUpdate
         (fst (BlockLifecycle.unmount []
                 (fst (BlockLifecycle.unmount []
                         Examples.mounted_clean_block))))
         Examples.env0)
  = emit (RequestUpdate 1) Examples.env0.
Proof.
  exact (proj2 (proj2 (proj2 (proj2
           (unmount_toggles_MOUNTED [] [] Examples.mounted_clean_block
              Examples.env0)))) eq_refl eq_refl).
Defined.

(** An instance of X7: the mount point did not change. *)
Lemma update_swaps_mount_point_witness :
  BlockLifecycle.update 0 LifecycleExamples.shaped_block
  = (LifecycleExamples.shaped_block, []).
Proof.
  exact (proj1 (proj2 (proj2
           (update_swaps_mount_point 0%nat LifecycleExamples.shaped_block)))
           eq_refl).
Defined.

End BlockRenderFacts.

(** ** Choice directive: the other paths *)

Section ChoiceMoreFacts.

Lemma elem_of_map_2 {A B : Type} (f : A -> B) (l : list A) (x : A) :
  x ∈ l -> f x ∈ map f l.
Proof.
  induction 1 as [x l|x y l _ IH]; simpl.
  - apply elem_of_cons. left. reflexivity.
  - apply elem_of_cons. right. exact IH.
Qed.

(** A value [get] finds is stored under a key equal to the one asked for. *)
Lemma get_Some_elem {V : Type} (k : Value) (v : V) (m : JSMap.t V) :
  JSMap.get k m = Some v ->
  exists k', (k', v) ∈ m /\ JS.same_value_zero k' k = true.
Proof.
  induction m as [|[k0 v0] m IH]; simpl; [discriminate|].
  destruct (JS.same_value_zero k0 k) eqn:E.
  - intros [= ->]. exists k0. split; [apply elem_of_cons; left; reflexivity|].
    exact E.
  - intros H. destruct (IH H) as (k' & Hin & Hk').
    exists k'. split; [apply elem_of_cons; right; exact Hin | exact Hk'].
Qed.

Lemma strict_equals_implies_same_value_zero (a b : Value) :
  JS.strict_equals a b = true -> JS.same_value_zero a b = true.
Proof.
  unfold JS.strict_equals, JS.same_value_zero.
  destruct a; destruct b; try discriminate; auto.
Qed.

Lemma object_is_implies_same_value_zero (a b : Value) :
  JS.object_is a b = true -> JS.same_value_zero a b = true.
Proof.
  unfold JS.object_is. intros H. apply bool_decide_eq_true in H. subst b.
  apply same_value_zero_refl.
Qed.

Lemma set_is_Some {V : Type} (k k' : Value) (v : V) (m : JSMap.t V) :
  is_Some (JSMap.get k m) -> is_Some (JSMap.get k (JSMap.set k' v m)).
Proof.
  intros H. destruct (JS.same_value_zero k' k) eqn:E.
  - rewrite get_set_same by exact E. eauto.
  - rewrite get_set_other by exact E. exact H.
Qed.

Lemma set_length {V : Type} (k : Value) (v : V) (m : JSMap.t V) :
  (length m <= length (JSMap.set k v m) <= S (length m))%nat.
Proof.
  induction m as [|[k0 v0] m IH]; simpl; [lia|].
  destruct (JS.same_value_zero k0 k); simpl; lia.
Qed.

(** X8.  [disconnect] calls [disconnect] on the cached bindings whose key
    is not strictly equal to the key of the directive, in the order in which
    the keys entered the cache, and [unbind] does the same after unbinding
    the current binding.  For a key other than [NaN] these are the bindings
    cached under another key; for [NaN] they are all the cached bindings. *)
Theorem choice_unbind_disconnect_calls (cb : ChoiceBinding.t) (h : Heap) :
  let key := choice_key (ChoiceBinding._directive cb) in
  let stale :=
    map (fun e => Disconnect e.2)
      (filter (fun e => JS.strict_equals e.1 key = false)
         (ChoiceBinding._cachedBindings cb)) in
  since h (ChoiceBinding.disconnect cb h) = stale
  /\ since h (ChoiceBinding.unbind cb h)
     = Unbind (ChoiceBinding._currentBinding cb) :: stale
  /\ (key <> VNaN ->
      stale
      = map (fun e => Disconnect e.2)
          (filter (fun e => JS.same_value_zero e.1 key = false)
             (ChoiceBinding._cachedBindings cb)))
  /\ (key = VNaN ->
      stale
      = map (fun e => Disconnect e.2) (ChoiceBinding._cachedBindings cb)).
Proof.
  intros key stale. split; [|split; [|split]].
  - unfold ChoiceBinding.disconnect.
    apply since_call, disconnect_cached_calls.
  - unfold ChoiceBinding.unbind. apply since_call.
    rewrite disconnect_cached_calls. unfold call. cbn [calls].
    rewrite <- app_assoc. reflexivity.
  - intros Hkey. subst stale. f_equal. apply list_filter_iff.
    intros [k b]. simpl.
    rewrite strict_equals_same_value_zero by exact Hkey. reflexivity.
  - intros Hkey. subst stale. f_equal. rewrite Hkey.
    induction (ChoiceBinding._cachedBindings cb) as [|[k b] l IH];
      [reflexivity|].
    rewrite filter_cons_True.
    + rewrite IH. reflexivity.
    + simpl. destruct k; reflexivity.
Qed.

(** An instance of X8: ["a"] cached, the directive on ["b"]. *)
Lemma choice_unbind_disconnect_calls_witness :
  since (snd Examples.choice_a_then_b)
    (ChoiceBinding.disconnect (fst Examples.choice_a_then_b)
       (snd Examples.choice_a_then_b))
  = [Disconnect Examples.binding0].
Proof.
  pose proof (choice_unbind_disconnect_calls (fst Examples.choice_a_then_b)
                (snd Examples.choice_a_then_b)) as H.
  cbv zeta in H. destruct H as (H1 & _ & H3 & _).
  rewrite H1, (H3 ltac:(vm_compute; intros HH; discriminate HH)).
  vm_compute. reflexivity.
Defined.

(** X9.  [disconnect] leaves the bindings it disconnects in the cache: a
    later [bind] with the key of one of them makes that binding current again
    and binds it, and constructs no binding. *)
Theorem choice_rebinds_disconnected_binding
  (cb : ChoiceBinding.t) (d : ChoiceDirective) (c : Binding) (h : Heap) :
  choice_key (ChoiceBinding._directive cb) = ChoiceBinding._currentKey cb ->
  JS.same_value_zero (ChoiceBinding._currentKey cb) (choice_key d) = false ->
  JSMap.get (choice_key d) (ChoiceBinding._cachedBindings cb) = Some c ->
  kind_of (choice_factory d (choice_key d)) = binding_kind c ->
  let h1 := ChoiceBinding.disconnect cb h in
  let r := ChoiceBinding.rebind d cb h1 in
  Disconnect c ∈ since h h1
  /\ ChoiceBinding._currentBinding (fst r) = c
  /\ since h1 (snd r)
     = [Unbind (ChoiceBinding._currentBinding cb);
        Bind c (choice_factory d (choice_key d)) true].
Proof.
  intros Hdir Hsvz Hget Hkind h1 r. split.
  - subst h1. unfold ChoiceBinding.disconnect.
    rewrite (since_call _ _ _ (disconnect_cached_calls _ _ _)).
    destruct (get_Some_elem _ _ _ Hget) as (k' & Hin & Hk').
    apply (elem_of_map_2 (fun e => Disconnect e.2) _ (k', c)).
    apply list_elem_of_filter. split; [|exact Hin]. simpl.
    destruct (JS.strict_equals k' (choice_key (ChoiceBinding._directive cb)))
      eqn:E; [|reflexivity].
    apply strict_equals_implies_same_value_zero in E.
    rewrite Hdir in E.
    rewrite same_value_zero_sym in E.
    rewrite <- (same_value_zero_trans _ _ _ E), Hk' in Hsvz.
    discriminate Hsvz.
  - assert (Hk : JS.object_is
                   (ChoiceBinding._currentKey (ChoiceBinding.set_value d cb))
                   (choice_key
                      (ChoiceBinding._directive
                         (ChoiceBinding.set_value d cb))) = false).
    { simpl. destruct (JS.object_is _ _) eqn:E; [|reflexivity].
      apply object_is_implies_same_value_zero in E. congruence. }
    subst r. unfold ChoiceBinding.rebind.
    rewrite (bind_key_change _ h1 Hk). simpl.
    rewrite get_set_other by exact Hsvz. rewrite Hget.
    unfold updateBinding. rewrite decide_True by exact Hkind.
    split; [reflexivity|]. apply since_call. unfold call. cbn [calls snd].
    rewrite <- app_assoc. reflexivity.
Qed.

(** An instance of X9: back to ["a"] after [disconnect]. *)
Lemma choice_rebinds_disconnected_binding_witness :
  Disconnect Examples.binding0
  ∈ since (snd Examples.choice_a_then_b)
      (ChoiceBinding.disconnect (fst Examples.choice_a_then_b)
         (snd Examples.choice_a_then_b)).
Proof.
  exact (proj1 (choice_rebinds_disconnected_binding
                  (fst Examples.choice_a_then_b)
                  (Examples.choice_of (VStr "a")) Examples.binding0
                  (snd Examples.choice_a_then_b)
                  eq_refl eq_refl eq_refl eq_refl)).
Defined.

(** X10.  After a rebind the current key is the key of the directive given.
    The cache keeps every key it has: a rebind adds at most one entry and
    removes none. *)
Theorem choice_rebind_keeps_cache
  (cb : ChoiceBinding.t) (d : ChoiceDirective) (h : Heap) :
  let r := ChoiceBinding.rebind d cb h in
  ChoiceBinding._currentKey (fst r) = choice_key d
  /\ ChoiceBinding._directive (fst r) = d
  /\ (forall k : Value,
        is_Some (JSMap.get k (ChoiceBinding._cachedBindings cb)) ->
        is_Some (JSMap.get k (ChoiceBinding._cachedBindings (fst r))))
  /\ (length (ChoiceBinding._cachedBindings cb)
      <= length (ChoiceBinding._cachedBindings (fst r))
      <= S (length (ChoiceBinding._cachedBindings cb)))%nat.
Proof.
  intros r. subst r. unfold ChoiceBinding.rebind.
  destruct (JS.object_is (ChoiceBinding._currentKey cb) (choice_key d))
    eqn:E.
  - unfold ChoiceBinding.bind. simpl. rewrite E.
    destruct (updateBinding _ _ _ _) as [b h1]. simpl.
    apply bool_decide_eq_true in E.
    split; [exact E|]. split; [reflexivity|]. split; [auto|lia].
  - rewrite (bind_key_change (ChoiceBinding.set_value d cb) h E). simpl.
    split; [reflexivity|]. split; [reflexivity|].
    split; [intros k; apply set_is_Some | apply set_length].
Qed.

(** The only keys that [Object.is] tells apart and a [Map] does not are the
    two zeros. *)
Lemma zeros_only (a b : Value) :
  JS.object_is a b = false ->
  JS.same_value_zero a b = true ->
  (a = VNum 0 /\ b = VNegZero) \/ (a = VNegZero /\ b = VNum 0).
Proof.
  unfold JS.object_is, JS.same_value_zero. intros Hne Heq.
  apply bool_decide_eq_false in Hne. apply bool_decide_eq_true in Heq.
  destruct a; destruct b; simpl in Heq; try discriminate; try congruence;
    auto.
Qed.

(** X11.  A rebind from key [+0] to [-0], or back, counts as a key change
    for [Object.is] and finds, under the new key, the binding it has just
    stored under the old one: when the new value is of the kind that binding
    was made for, the current binding is unbound and at once bound again by
    force, and stays the current binding. *)
Theorem choice_rebind_between_zeros
  (cb : ChoiceBinding.t) (d : ChoiceDirective) (h : Heap) :
  JS.object_is (ChoiceBinding._currentKey cb) (choice_key d) = false ->
  JS.same_value_zero (ChoiceBinding._currentKey cb) (choice_key d) = true ->
  kind_of (choice_factory d (choice_key d))
  = binding_kind (ChoiceBinding._currentBinding cb) ->
  let r := ChoiceBinding.rebind d cb h in
  ((ChoiceBinding._currentKey cb = VNum 0 /\ choice_key d = VNegZero)
   \/ (ChoiceBinding._currentKey cb = VNegZero /\ choice_key d = VNum 0))
  /\ ChoiceBinding._currentBinding (fst r) = ChoiceBinding._currentBinding cb
  /\ ChoiceBinding._currentKey (fst r) = choice_key d
  /\ since h (snd r)
     = [Unbind (ChoiceBinding._currentBinding cb);
        Bind (ChoiceBinding._currentBinding cb)
          (choice_factory d (choice_key d)) true].
Proof.
  intros Hne Hsvz Hkind r. split; [exact (zeros_only _ _ Hne Hsvz)|].
  subst r. unfold ChoiceBinding.rebind.
  rewrite (bind_key_change (ChoiceBinding.set_value d cb) h Hne). simpl.
  rewrite get_set_same by exact Hsvz.
  unfold updateBinding. rewrite decide_True by exact Hkind.
  split; [reflexivity|]. split; [reflexivity|].
  apply since_call. unfold call. cbn [calls snd].
  rewrite <- app_assoc. reflexivity.
Qed.

(** An instance of X11: [choice(0, f)] rebound with key [-0]. *)
Lemma choice_rebind_between_zeros_witness :
  ChoiceBinding._currentBinding
    (fst (ChoiceBinding.rebind (Examples.choice_of VNegZero)
            (fst (ChoiceBinding.directiveTag (Examples.choice_of (VNum 0)) 0
                    Examples.heap0))
            (snd (ChoiceBinding.directiveTag (Examples.choice_of (VNum 0)) 0
                    Examples.heap0))))
  = Examples.binding0.
Proof.
  exact (proj1 (proj2 (choice_rebind_between_zeros
                         (fst (ChoiceBinding.directiveTag
                                 (Examples.choice_of (VNum 0)) 0
                                 Examples.heap0))
                         (Examples.choice_of VNegZero)
                         (snd (ChoiceBinding.directiveTag
                                 (Examples.choice_of (VNum 0)) 0
                                 Examples.heap0))
                         eq_refl eq_refl eq_refl))).
Defined.

End ChoiceMoreFacts.

(** An instance of X10: the key cached by the first rebind is still cached
    after the second. *)
Lemma choice_rebind_keeps_cache_witness :
  is_Some
    (JSMap.get (VStr "a")
       (ChoiceBinding._cachedBindings
          (fst (ChoiceBinding.rebind (Examples.choice_of (VStr "c"))
                  (fst Examples.choice_a_then_b)
                  (snd Examples.choice_a_then_b))))).
Proof.
  apply (proj1 (proj2 (proj2
           (choice_rebind_keeps_cache (fst Examples.choice_a_then_b)
              (Examples.choice_of (VStr "c"))
              (snd Examples.choice_a_then_b))))).
  vm_compute. eexists. reflexivity.
Defined.

(** ** Condition directive: flips, getters *)

Section ConditionMoreFacts.

Lemma filter_binds_opt_Unbind (o : option Binding) :
  filter (fun e => binds e = true) (opt_call Unbind o) = [].
Proof. destruct o; reflexivity. Qed.

Lemma condition_bind_keeps (cb : ConditionBinding.t) (h : Heap) :
  ConditionBinding._directive (fst (ConditionBinding.bind cb h))
  = ConditionBinding._directive cb
  /\ ConditionBinding._part (fst (ConditionBinding.bind cb h))
     = ConditionBinding._part cb.
Proof.
  unfold ConditionBinding.bind.
  destruct (resolve (condition _) h) as [[|] h1].
  - destruct (resolve (trueCase _) h1) as [v h2].
    destruct (match ConditionBinding._trueBinding cb with
              | Some tb => _
              | None => _
              end) as [b h4].
    split; reflexivity.
  - destruct (resolve (falseCase _) h1) as [v h2].
    destruct (match ConditionBinding._falseBinding cb with
              | Some fb => _
              | None => _
              end) as [b h4].
    split; reflexivity.
Qed.

(** One [bind] that selects the true branch while that branch has a
    sub-binding of the kind of the new value. *)
Lemma condition_bind_true_again (cb : ConditionBinding.t) (tb : Binding)
  (h : Heap) :
  let d := ConditionBinding._directive cb in
  let v := fst (resolve (trueCase d) (snd (resolve (condition d) h))) in
  ConditionBinding._trueBinding cb = Some tb ->
  fst (resolve (condition d) h) = true ->
  kind_of v = binding_kind tb ->
  ConditionBinding._trueBinding (fst (ConditionBinding.bind cb h)) = Some tb
  /\ filter (fun e => binds e = true)
       (since h (snd (ConditionBinding.bind cb h)))
     = [Bind tb v false].
Proof.
  intros d v Htb Hc Hk.
  destruct (condition_bind_calls cb h) as (b' & Hsel & _ & Hfresh & Hcalls).
  fold d in Hsel, Hfresh, Hcalls. rewrite Hc in Hsel, Hfresh, Hcalls.
  fold v in Hfresh, Hcalls. rewrite Htb in Hfresh, Hcalls.
  assert (Hb' : b' = tb).
  { destruct Hfresh as [[[= ->] _]|[_ Hne]]; [reflexivity|].
    destruct (Hne tb eq_refl Hk). }
  subst b'. split; [exact Hsel|].
  rewrite Hcalls, !filter_app, !filter_binds_invocations,
    filter_binds_opt_Unbind.
  simpl. unfold binding_calls. rewrite decide_True by exact Hk.
  reflexivity.
Qed.

(** The same for the false branch. *)
Lemma condition_bind_false_again (cb : ConditionBinding.t) (fb : Binding)
  (h : Heap) :
  let d := ConditionBinding._directive cb in
  let v := fst (resolve (falseCase d) (snd (resolve (condition d) h))) in
  ConditionBinding._falseBinding cb = Some fb ->
  fst (resolve (condition d) h) = false ->
  kind_of v = binding_kind fb ->
  ConditionBinding._falseBinding (fst (ConditionBinding.bind cb h)) = Some fb
  /\ filter (fun e => binds e = true)
       (since h (snd (ConditionBinding.bind cb h)))
     = [Bind fb v false].
Proof.
  intros d v Hfb Hc Hk.
  destruct (condition_bind_calls cb h) as (b' & Hsel & _ & Hfresh & Hcalls).
  fold d in Hsel, Hfresh, Hcalls. rewrite Hc in Hsel, Hfresh, Hcalls.
  fold v in Hfresh, Hcalls. rewrite Hfb in Hfresh, Hcalls.
  assert (Hb' : b' = fb).
  { destruct Hfresh as [[[= ->] _]|[_ Hne]]; [reflexivity|].
    destruct (Hne fb eq_refl Hk). }
  subst b'. split; [exact Hsel|].
  rewrite Hcalls, !filter_app, !filter_binds_invocations,
    filter_binds_opt_Unbind.
  simpl. unfold binding_calls. rewrite decide_True by exact Hk.
  reflexivity.
Qed.

(** X12.  When the condition flips from true to false and back, the
    sub-binding of the true branch is unbound by the first [bind], kept, and
    bound again by the second: it is the same object and no binding is
    constructed for the true branch. *)
Theorem condition_flip_reuses_binding
  (cb : ConditionBinding.t) (dF dT : ConditionDirective) (tb : Binding)
  (h : Heap) :
  let r1 := ConditionBinding.bind (ConditionBinding.set_value dF cb) h in
  let r2 := ConditionBinding.bind (ConditionBinding.set_value dT (fst r1))
              (snd r1) in
  let v := fst (resolve (trueCase dT)
                  (snd (resolve (condition dT) (snd r1)))) in
  ConditionBinding._trueBinding cb = Some tb ->
  fst (resolve (condition dF) h) = false ->
  fst (resolve (condition dT) (snd r1)) = true ->
  kind_of v = binding_kind tb ->
  Unbind tb ∈ since h (snd r1)
  /\ ConditionBinding._trueBinding (fst r1) = Some tb
  /\ ConditionBinding._trueBinding (fst r2) = Some tb
  /\ filter (fun e => binds e = true) (since (snd r1) (snd r2))
     = [Bind tb v false].
Proof.
  intros r1 r2 v Htb HcF HcT Hk.
  destruct (condition_bind_calls (ConditionBinding.set_value dF cb) h)
    as (b1 & _ & Hoth & _ & Hcalls).
  cbn [ConditionBinding.set_value ConditionBinding._directive
       ConditionBinding._trueBinding ConditionBinding._falseBinding]
    in Hoth, Hcalls.
  rewrite HcF in Hoth, Hcalls. rewrite Htb in Hoth, Hcalls.
  fold r1 in Hoth, Hcalls.
  split.
  { rewrite Hcalls. apply elem_of_app. right. apply elem_of_app. right.
    apply elem_of_app. left. apply elem_of_cons. left. reflexivity. }
  split; [exact Hoth|].
  apply (condition_bind_true_again
           (ConditionBinding.set_value dT (fst r1)) tb (snd r1)).
  - exact Hoth.
  - exact HcT.
  - exact Hk.
Qed.

(** An instance of X12: [false], then [true] again, on a binding whose true
    branch is bound. *)
Lemma condition_flip_reuses_binding_witness :
  let r1 := ConditionBinding.bind (Examples.condition_with (Val false))
              (snd Examples.condition_both) in
  ConditionBinding._trueBinding
    (fst (ConditionBinding.bind
            (ConditionBinding.set_value (Examples.yes_no (Val true)) (fst r1))
            (snd r1)))
  = Some Examples.binding1.
Proof.
  exact (proj1 (proj2 (proj2
           (condition_flip_reuses_binding (fst Examples.condition_both)
              (Examples.yes_no (Val false)) (Examples.yes_no (Val true))
              Examples.binding1 (snd Examples.condition_both)
              eq_refl eq_refl eq_refl eq_refl)))).
Defined.

(** X13.  After a [bind] with a boolean condition, [startNode] is the start
    node of the sub-binding that was bound.  With a function as the
    condition the getter does not call it: when the function answered
    [false] and the false branch was bound, [startNode] is still the start
    node of the sub-binding of the true branch, or the node of the part when
    there is none. *)
Theorem condition_startNode
  (binding_startNode : Binding -> nat) (part_node : nat -> nat)
  (cb : ConditionBinding.t) (h : Heap) :
  let r := ConditionBinding.bind cb h in
  (forall c : bool,
     condition (ConditionBinding._directive cb) = Val c ->
     exists b' : Binding,
       (if c then ConditionBinding._trueBinding (fst r)
        else ConditionBinding._falseBinding (fst r)) = Some b'
       /\ ConditionNodes.startNode binding_startNode part_node (fst r)
          = binding_startNode b')
  /\ (forall (fid : nat) (body : Heap -> bool),
        condition (ConditionBinding._directive cb) = Fun fid body ->
        body h = false ->
        is_Some (ConditionBinding._falseBinding (fst r))
        /\ ConditionNodes.startNode binding_startNode part_node (fst r)
           = match ConditionBinding._trueBinding cb with
             | Some tb => binding_startNode tb
             | None => part_node (ConditionBinding._part cb)
             end).
Proof.
  intros r.
  destruct (condition_bind_calls cb h) as (b' & Hsel & Hoth & _ & _).
  destruct (condition_bind_keeps cb h) as [Hd Hp].
  fold r in Hsel, Hoth, Hd, Hp.
  split.
  - intros c Hc. rewrite Hc in Hsel. simpl in Hsel.
    exists b'. split; [exact Hsel|].
    unfold ConditionNodes.startNode. rewrite Hd, Hc. simpl.
    destruct c; rewrite Hsel; reflexivity.
  - intros fid body Hc Hb. rewrite Hc in Hsel, Hoth. simpl in Hsel, Hoth.
    rewrite Hb in Hsel, Hoth.
    split; [rewrite Hsel; eauto|].
    unfold ConditionNodes.startNode. rewrite Hd, Hc, Hp. simpl.
    rewrite Hoth. reflexivity.
Qed.

(** An instance of X13: a predicate that answers [false] on a new binding;
    the false branch is bound and [startNode] is the node of the part. *)
Lemma condition_startNode_witness :
  ConditionNodes.startNode (fun b => binding_id b) (fun part => 50%nat)
    (fst (ConditionBinding.directiveTag
            (Examples.yes_no (Fun 7 (fun _ => false))) 0 Examples.heap0))
  = 50%nat.
Proof.
  exact (proj2 (proj2 (condition_startNode (fun b => binding_id b)
                         (fun part => 50%nat)
                         (ConditionBinding.new 0
                            (Examples.yes_no (Fun 7 (fun _ => false))))
                         Examples.heap0)
                  7%nat (fun _ => false) eq_refl eq_refl)).
Defined.

(** X14.  [unbind] disconnects the sub-binding of the branch that is not
    selected and keeps it: when the condition is false at the next [bind]
    and the value of the false case is of the kind that sub-binding was made
    for, the disconnected sub-binding is bound again and no binding is
    constructed. *)
Theorem condition_rebinds_disconnected_branch
  (cb : ConditionBinding.t) (dF : ConditionDirective) (fb : Binding)
  (h : Heap) :
  let h1 := ConditionBinding.unbind cb h in
  let r := ConditionBinding.bind (ConditionBinding.set_value dF cb) h1 in
  let v := fst (resolve (falseCase dF)
                  (snd (resolve (condition dF) h1))) in
  truthy (condition (ConditionBinding._directive cb)) = true ->
  ConditionBinding._falseBinding cb = Some fb ->
  fst (resolve (condition dF) h1) = false ->
  kind_of v = binding_kind fb ->
  Disconnect fb ∈ since h h1
  /\ ConditionBinding._falseBinding (fst r) = Some fb
  /\ filter (fun e => binds e = true) (since h1 (snd r))
     = [Bind fb v false].
Proof.
  intros h1 r v Htruthy Hfb Hc Hk. split.
  - subst h1. rewrite condition_unbind_calls, Htruthy, Hfb.
    apply elem_of_app. right. apply elem_of_cons. left. reflexivity.
  - apply (condition_bind_false_again
             (ConditionBinding.set_value dF cb) fb h1).
    + exact Hfb.
    + exact Hc.
    + exact Hk.
Qed.

(** An instance of X14: unbound with both branches present, then bound with
    [false]. *)
Lemma condition_rebinds_disconnected_branch_witness :
  let h1 := ConditionBinding.unbind (fst Examples.condition_both)
              (snd Examples.condition_both) in
  filter (fun e => binds e = true)
    (since h1
       (snd (ConditionBinding.bind (Examples.condition_with (Val false)) h1)))
  = [Bind Examples.binding0 (VStr "no") false].
Proof.
  exact (proj2 (proj2
           (condition_rebinds_disconnected_branch
              (fst Examples.condition_both) (Examples.yes_no (Val false))
              Examples.binding0 (snd Examples.condition_both)
              eq_refl eq_refl eq_refl eq_refl))).
Defined.

End ConditionMoreFacts.

(** ** Scopes: variables and template caches *)

Section ScopeMoreFacts.

Context (realm : Realm).

Lemma with_variables_twice (renderable : nat) (x y : Varibales)
  (s : ScopeState) :
  with_variables renderable x (with_variables renderable y s)
  = with_variables renderable x s.
Proof.
  unfold with_variables. simpl. rewrite insert_insert_eq. reflexivity.
Qed.

Lemma with_variables_commute (r1 r2 : nat) (x y : Varibales)
  (s : ScopeState) :
  r1 <> r2 ->
  with_variables r1 x (with_variables r2 y s)
  = with_variables r2 y (with_variables r1 x s).
Proof.
  intros Hr. unfold with_variables. simpl. f_equal.
  apply insert_insert_ne. congruence.
Qed.

(** What [setVariable] does when the assignment reaches the record: the
    record of the renderable, an empty literal if it had none, gets the own
    property. *)
Lemma setVariable_define (key : PropertyKey) (value : Value)
  (renderable : nat) (s : ScopeState) :
  without_variables renderable s
  \/ (with_plain_variables renderable s /\ key <> proto_key) ->
  setVariable realm key value renderable s
  = Ok (with_variables renderable
          (define (default (literal ∅) (_variableScope s !! renderable))
             key value) s).
Proof.
  intros [Hnone|[(variables & Hr & Hp) Hk]].
  - rewrite (setVariable_new _ _ _ _ _ Hnone).
    unfold without_variables in Hnone. rewrite Hnone. simpl.
    unfold define, literal. simpl. rewrite insert_empty. reflexivity.
  - rewrite (setVariable_plain _ _ _ _ _ _ Hr Hp Hk), Hr. reflexivity.
Qed.


Lemma define_twice (record : Varibales) (key : PropertyKey) (v1 v2 : Value) :
  define (define record key v1) key v2 = define record key v2.
Proof. unfold define. simpl. rewrite insert_insert_eq. reflexivity. Qed.

Lemma define_commute (record : Varibales) (k1 k2 : PropertyKey)
  (v1 v2 : Value) :
  k1 <> k2 ->
  define (define record k2 v2) k1 v1 = define (define record k1 v1) k2 v2.
Proof.
  intros Hk. unfold define. simpl. f_equal.
  apply insert_insert_ne. congruence.
Qed.

(** After a write that reached the record, the renderable has a plain
    record. *)
Lemma with_variables_plain (renderable : nat) (record : Varibales)
  (s : ScopeState) :
  prototype record = ObjectPrototype ->
  with_plain_variables renderable (with_variables renderable record s).
Proof.
  intros Hp. exists record. split; [|exact Hp].
  unfold with_variables. simpl. apply lookup_insert_eq.
Qed.

Lemma default_literal_plain (o : option Varibales) :
  (forall variables : Varibales,
     o = Some variables -> prototype variables = ObjectPrototype) ->
  prototype (default (literal ∅) o) = ObjectPrototype.
Proof. destruct o as [variables|]; simpl; auto. Qed.

(** X16.  Where the assignments reach the record - the renderable has no
    variable yet, or its record inherits from [Object.prototype] and the key
    is not [__proto__] - the second of two writes to the same variable of the
    same renderable wins and the first leaves no trace; and two writes to
    different variables or for different renderables, neither key being
    [__proto__], give the same scope in either order. *)
Theorem setVariable_overwrite_commute
  (k1 k2 : PropertyKey) (v1 v2 : Value) (r1 r2 : nat) (s : ScopeState) :
  (without_variables r1 s
   \/ (with_plain_variables r1 s /\ k1 <> proto_key) ->
   (s1 ← setVariable realm k1 v1 r1 s; setVariable realm k1 v2 r1 s1)
   = setVariable realm k1 v2 r1 s)
  /\ (k1 <> k2 \/ r1 <> r2 ->
      k1 <> proto_key ->
      k2 <> proto_key ->
      without_variables r1 s \/ with_plain_variables r1 s ->
      without_variables r2 s \/ with_plain_variables r2 s ->
      (s1 ← setVariable realm k2 v2 r2 s; setVariable realm k1 v1 r1 s1)
      = (s1 ← setVariable realm k1 v1 r1 s; setVariable realm k2 v2 r2 s1)).
Proof.
  split.
  - intros [Hnone|[(variables & Hr & Hp) Hk]].
    + rewrite !(setVariable_new _ _ _ _ _ Hnone).
      change (setVariable realm k1 v2 r1
                (with_variables r1 (literal {[k1 := v1]}) s)
              = Ok (with_variables r1 (literal {[k1 := v2]}) s)).
      unfold setVariable. cbn [with_variables _variableScope].
      rewrite lookup_insert_eq. unfold assign, literal. cbn [own].
      rewrite lookup_singleton_eq.
      change (Ok (with_variables r1
                    (define (literal {[k1 := v1]}) k1 v2)
                    (with_variables r1 (literal {[k1 := v1]}) s))
              = Ok (with_variables r1 (literal {[k1 := v2]}) s)).
      rewrite with_variables_twice. unfold define, literal. simpl.
      rewrite insert_singleton_eq. reflexivity.
    + rewrite !(setVariable_plain _ _ _ _ _ _ Hr Hp Hk).
      change (setVariable realm k1 v2 r1
                (with_variables r1 (define variables k1 v1) s)
              = Ok (with_variables r1 (define variables k1 v2) s)).
      rewrite (setVariable_plain _ k1 v2 r1 _ (define variables k1 v1));
        [|apply lookup_insert_eq|exact Hp|exact Hk].
      rewrite with_variables_twice, define_twice. reflexivity.
  - intros Hne Hk1 Hk2 H1 H2.
    assert (S1 : without_variables r1 s
                 \/ (with_plain_variables r1 s /\ k1 <> proto_key))
      by tauto.
    assert (S2 : without_variables r2 s
                 \/ (with_plain_variables r2 s /\ k2 <> proto_key))
      by tauto.
    assert (P1 : prototype (default (literal ∅) (_variableScope s !! r1))
                 = ObjectPrototype).
    { apply default_literal_plain. intros variables Hr.
      destruct H1 as [Hnone|(variables' & Hr' & Hp)].
      - unfold without_variables in Hnone. congruence.
      - congruence. }
    assert (P2 : prototype (default (literal ∅) (_variableScope s !! r2))
                 = ObjectPrototype).
    { apply default_literal_plain. intros variables Hr.
      destruct H2 as [Hnone|(variables' & Hr' & Hp)].
      - unfold without_variables in Hnone. congruence.
      - congruence. }
    rewrite (setVariable_define k2 v2 r2 s S2).
    rewrite (setVariable_define k1 v1 r1 s S1).
    set (x1 := default (literal ∅) (_variableScope s !! r1)) in *.
    set (x2 := default (literal ∅) (_variableScope s !! r2)) in *.
    change (setVariable realm k1 v1 r1
              (with_variables r2 (define x2 k2 v2) s)
            = setVariable realm k2 v2 r2
                (with_variables r1 (define x1 k1 v1) s)).
    destruct (decide (r1 = r2)) as [Hr|Hr].
    + destruct Hne as [Hk|Hr']; [|destruct (Hr' Hr)].
      subst r2. subst x1 x2.
      set (x := default (literal ∅) (_variableScope s !! r1)) in *.
      rewrite (setVariable_plain _ k1 v1 r1 _ (define x k2 v2));
        [|apply lookup_insert_eq|exact P1|exact Hk1].
      rewrite (setVariable_plain _ k2 v2 r1 _ (define x k1 v1));
        [|apply lookup_insert_eq|exact P1|exact Hk2].
      rewrite !with_variables_twice, (define_commute x k1 k2 v1 v2 Hk).
      reflexivity.
    + assert (L1 : _variableScope (with_variables r2 (define x2 k2 v2) s)
                     !! r1 = _variableScope s !! r1).
      { unfold with_variables. simpl. apply lookup_insert_ne. congruence. }
      assert (L2 : _variableScope (with_variables r1 (define x1 k1 v1) s)
                     !! r2 = _variableScope s !! r2).
      { unfold with_variables. simpl. apply lookup_insert_ne. congruence. }
      rewrite (setVariable_define k1 v1 r1 (with_variables r2 _ s)).
      2:{ destruct H1 as [Hnone|(variables & Hr1 & Hp)].
          - left. unfold without_variables in *. congruence.
          - right. split; [|exact Hk1]. exists variables.
            split; [congruence|exact Hp]. }
      rewrite (setVariable_define k2 v2 r2 (with_variables r1 _ s)).
      2:{ destruct H2 as [Hnone|(variables & Hr2 & Hp)].
          - left. unfold without_variables in *. congruence.
          - right. split; [|exact Hk2]. exists variables.
            split; [congruence|exact Hp]. }
      rewrite L1, L2. fold x1 x2.
      rewrite (with_variables_commute r1 r2 _ _ s Hr). reflexivity.
Qed.

End ScopeMoreFacts.

(** An instance of X16: two variables of one renderable. *)
Lemma setVariable_overwrite_commute_witness :
  (s1 ← setVariable Examples.realm (StringKey "lang") (VStr "en") 1
          Examples.themed_scope;
   setVariable Examples.realm Examples.theme (VStr "dark") 1 s1)
  = (s1 ← setVariable Examples.realm Examples.theme (VStr "dark") 1
            Examples.themed_scope;
     setVariable Examples.realm (StringKey "lang") (VStr "en") 1 s1).
Proof.
  apply (proj2 (setVariable_overwrite_commute Examples.realm Examples.theme
                  (StringKey "lang") (VStr "dark") (VStr "en") 1%nat 1%nat
                  Examples.themed_scope)).
  - left. discriminate.
  - discriminate.
  - discriminate.
  - left. reflexivity.
  - left. reflexivity.
Defined.


Section TemplateCacheFacts.

Context (parseHTML parseSVG : list string -> string -> option nat).

(** X17.  The two template methods of [LocalScope] share one cache: for an
    array that [createHTMLTemplate] has a template for, [createSVGTemplate]
    returns that template and does not call the SVG parser, whatever that
    parser would make of the strings; and the other way round. *)
Theorem html_svg_templates_share_cache
  (tokens : TemplateStringsArray) (s s1 : ScopeState) (p p1 : Parser)
  (t : Template) :
  (createHTMLTemplate parseHTML tokens s p = (Ok t, (s1, p1)) ->
   createSVGTemplate parseSVG tokens s1 p1 = (Ok t, (s1, p1)))
  /\ (createSVGTemplate parseSVG tokens s p = (Ok t, (s1, p1)) ->
      createHTMLTemplate parseHTML tokens s1 p1 = (Ok t, (s1, p1))).
Proof. split; apply create_with_twice. Qed.

(** X18.  When the parser rejects the strings of an array that is not in
    the cache, the template method throws and leaves the scope as it was:
    nothing is cached, and a second call with the array calls the parser
    again. *)
Theorem rejected_template_not_cached
  (tokens : TemplateStringsArray) (s : ScopeState) (p : Parser) :
  _templateCaches s !! tsa_id tokens = None ->
  parseHTML (tsa_strings tokens) (_marker s) = None ->
  let r1 := createHTMLTemplate parseHTML tokens s p in
  let r2 := createHTMLTemplate parseHTML tokens (fst (snd r1))
              (snd (snd r1)) in
  returned (fst r1) = false
  /\ fst (snd r1) = s
  /\ returned (fst r2) = false
  /\ fst (snd r2) = s
  /\ parsed (snd (snd r2)) = parsed p ++ [tsa_id tokens; tsa_id tokens]
  /\ parse_count tokens (snd (snd r2)) = S (S (parse_count tokens p)).
Proof.
  intros Hc Hp r1 r2.
  assert (E : forall q,
            createHTMLTemplate parseHTML tokens s q
            = (Throw "invalid template",
               (s, {| next_template := next_template q;
                      parsed := parsed q ++ [tsa_id tokens] |}))).
  { intros q. unfold createHTMLTemplate, create_with, parse_with.
    rewrite Hc, Hp. reflexivity. }
  subst r2 r1. rewrite E. cbn [fst snd]. rewrite E. cbn [fst snd parsed].
  split; [reflexivity|]. split; [reflexivity|]. split; [reflexivity|].
  split; [reflexivity|]. split; [rewrite <- app_assoc; reflexivity|].
  unfold parse_count. cbn [parsed].
  rewrite !filter_app, !length_app.
  rewrite !filter_cons_True, filter_nil by reflexivity. simpl. lia.
Qed.

End TemplateCacheFacts.

(** An instance of X17. *)
Lemma html_svg_templates_share_cache_witness :
  let first := createHTMLTemplate Examples.count_holes Examples.strings_a
                 Examples.themed_scope new_parser in
  createSVGTemplate ScopeExamples.reject_all Examples.strings_a
    (fst (snd first)) (snd (snd first))
  = (Ok {| tpl_id := 0; tpl_parts := 1 |}, snd first).
Proof.
  exact (proj1 (html_svg_templates_share_cache Examples.count_holes
                  ScopeExamples.reject_all Examples.strings_a
                  Examples.themed_scope _ new_parser _ _) eq_refl).
Defined.

(** An instance of X18. *)
Lemma rejected_template_not_cached_witness :
  parse_count Examples.strings_a
    (snd (snd (createHTMLTemplate ScopeExamples.reject_all Examples.strings_a
                 Examples.themed_scope
                 (snd (snd (createHTMLTemplate ScopeExamples.reject_all
                              Examples.strings_a Examples.themed_scope
                              new_parser))))))
  = 2%nat.
Proof.
  exact (proj2 (proj2 (proj2 (proj2 (proj2
           (rejected_template_not_cached ScopeExamples.reject_all
              Examples.strings_a Examples.themed_scope new_parser
              eq_refl eq_refl)))))).
Defined.

(** ** getUUID *)

Section UUIDFacts.

Import Byte.

Lemma byte_hex (b : Byte.byte) :
  UUID.padStart 2 "0" (UUID.toString16 (Byte.to_N b))
  = String (UUID.high_digit b) (String (UUID.low_digit b) EmptyString).
Proof. destruct b; reflexivity. Qed.

Lemma byte_of_digits_digits (b : Byte.byte) :
  UUID.byte_of_digits (UUID.high_digit b) (UUID.low_digit b) = Some b.
Proof. destruct b; reflexivity. Qed.

Lemma digits_are_hex (b : Byte.byte) :
  UUID.is_hex_digit (UUID.high_digit b) = true
  /\ UUID.is_hex_digit (UUID.low_digit b) = true.
Proof. destruct b; split; reflexivity. Qed.

Lemma digits_inj (a b : Byte.byte) :
  UUID.high_digit a = UUID.high_digit b ->
  UUID.low_digit a = UUID.low_digit b ->
  a = b.
Proof.
  intros Hh Hl.
  assert (H : Some a = Some b).
  { rewrite <- (byte_of_digits_digits a), <- (byte_of_digits_digits b),
      Hh, Hl. reflexivity. }
  injection H as ->. reflexivity.
Qed.

Lemma sixteen {A : Type} (l : list A) :
  length l = 16%nat ->
  exists a0 a1 a2 a3 a4 a5 a6 a7 a8 a9 a10 a11 a12 a13 a14 a15,
    l = [a0; a1; a2; a3; a4; a5; a6; a7; a8; a9; a10; a11; a12; a13; a14;
         a15].
Proof.
  intros H. do 16 (destruct l as [|? l]; [discriminate H|]).
  destruct l; [|discriminate H]. repeat eexists.
Qed.

(** X19.  Built from sixteen random bytes, the identifier is the two
    lowercase hexadecimal digits of each byte in order, with a hyphen after
    the bytes 4, 6, 8 and 10: thirty-six characters, hyphens at the positions
    8, 13, 18 and 23 and hexadecimal digits everywhere else.  Where
    [crypto.randomUUID] exists its result is returned as it is. *)
Theorem getUUID_layout (bytes : list Byte.byte) :
  length bytes = 16%nat ->
  let uuid := UUID.getUUID None bytes in
  uuid
  = UUID.hex_of_bytes (take 4 bytes) +:+ "-"
    +:+ UUID.hex_of_bytes (take 2 (drop 4 bytes)) +:+ "-"
    +:+ UUID.hex_of_bytes (take 2 (drop 6 bytes)) +:+ "-"
    +:+ UUID.hex_of_bytes (take 2 (drop 8 bytes)) +:+ "-"
    +:+ UUID.hex_of_bytes (drop 10 bytes)
  /\ Stdlib.Strings.String.length uuid = 36%nat
  /\ (forall (i : nat) (c : ascii),
        Stdlib.Strings.String.get i uuid = Some c ->
        if is_hyphen_position i then c = "-"%char
        else UUID.is_hex_digit c = true)
  /\ forall u : string, UUID.getUUID (Some u) bytes = u.
Proof.
  intros H uuid. subst uuid.
  destruct (sixteen _ H)
    as (a0&a1&a2&a3&a4&a5&a6&a7&a8&a9&a10&a11&a12&a13&a14&a15&->).
  unfold UUID.getUUID, UUID.uuid_of_bytes, UUID.hex_of_bytes.
  cbn [map take drop]. rewrite !byte_hex.
  split; [reflexivity|]. split; [reflexivity|]. split; [|reflexivity].
  intros i c Hi. cbn in Hi.
  do 36 (destruct i as [|i];
         [injection Hi as <-; cbn;
          first [reflexivity | apply digits_are_hex]|]).
  cbn in Hi. discriminate Hi.
Qed.

(** X20.  Different random bytes give different identifiers, and so
    different template markers. *)
Theorem getUUID_injective (bytes1 bytes2 : list Byte.byte) :
  length bytes1 = 16%nat ->
  length bytes2 = 16%nat ->
  (UUID.getUUID None bytes1 = UUID.getUUID None bytes2 -> bytes1 = bytes2)
  /\ (UUID.templateMarker None bytes1 = UUID.templateMarker None bytes2 ->
      bytes1 = bytes2).
Proof.
  intros H1 H2.
  assert (Hmarker : UUID.templateMarker None bytes1
                    = UUID.templateMarker None bytes2 -> bytes1 = bytes2).
  { destruct (sixteen _ H1)
      as (a0&a1&a2&a3&a4&a5&a6&a7&a8&a9&a10&a11&a12&a13&a14&a15&->).
    destruct (sixteen _ H2)
      as (b0&b1&b2&b3&b4&b5&b6&b7&b8&b9&b10&b11&b12&b13&b14&b15&->).
    unfold UUID.templateMarker, UUID.getUUID, UUID.uuid_of_bytes,
      UUID.hex_of_bytes.
    cbn [map]. rewrite !byte_hex. cbn. intros E.
    injection E as E0 F0 E1 F1 E2 F2 E3 F3 E4 F4 E5 F5 E6 F6 E7 F7
                   E8 F8 E9 F9 E10 F10 E11 F11 E12 F12 E13 F13 E14 F14
                   E15 F15.
    rewrite (digits_inj _ _ E0 F0), (digits_inj _ _ E1 F1),
      (digits_inj _ _ E2 F2), (digits_inj _ _ E3 F3),
      (digits_inj _ _ E4 F4), (digits_inj _ _ E5 F5),
      (digits_inj _ _ E6 F6), (digits_inj _ _ E7 F7),
      (digits_inj _ _ E8 F8), (digits_inj _ _ E9 F9),
      (digits_inj _ _ E10 F10), (digits_inj _ _ E11 F11),
      (digits_inj _ _ E12 F12), (digits_inj _ _ E13 F13),
      (digits_inj _ _ E14 F14), (digits_inj _ _ E15 F15).
    reflexivity. }
  split; [|exact Hmarker].
  intros E. apply Hmarker. unfold UUID.templateMarker. rewrite E.
  reflexivity.
Qed.

(** An instance of X19: sixteen zero bytes. *)
Lemma getUUID_layout_witness :
  Stdlib.Strings.String.length (UUID.getUUID None ScopeExamples.zero_bytes)
  = 36%nat.
Proof.
  exact (proj1 (proj2 (getUUID_layout ScopeExamples.zero_bytes eq_refl))).
Defined.

(** An instance of X20: bytes that differ in the last one give different
    identifiers. *)
Lemma getUUID_injective_witness :
  bool_decide
    (UUID.getUUID None ScopeExamples.zero_bytes
     = UUID.getUUID None (repeat Byte.x00 15 ++ [Byte.x01]))
  = false.
Proof.
  apply bool_decide_eq_false_2. intros E.
  discriminate (proj1 (getUUID_injective ScopeExamples.zero_bytes
                         (repeat Byte.x00 15 ++ [Byte.x01])
                         eq_refl eq_refl) E).
Defined.

End UUIDFacts.
